(** * Chat server coordination layer (server/server.js)

    A shallow embedding of the Socket.IO handlers of [server.js]: the
    connection registry [users], the typing map [typingUsers], the public
    room list [rooms], the message collection behind the Mongoose model
    and the Socket.IO adapter that resolves [io.emit], [io.to(room)],
    [socket.emit] and [socket.broadcast.to(room)] into deliveries.

    Every handler is an [async] function: it runs synchronously up to its
    first [await] on the message store and is resumed when the store
    settles the promise.  The embedding keeps that shape: a handler is cut
    at its awaits, the suspended rest is a [Task] in the state, and the
    settling of a promise is an input of its own, so that other events can
    run in between.

    Two things outside [server.js] shape what the handlers do and are part
    of the embedding: what Mongoose sends to the store when a fetched
    document is saved, and whether the process survives a rejection that
    nobody handles, which depends on [SENTRY_DSN]. *)

From Stdlib Require Import ZArith QArith Qround Qcanon List String Ascii Bool Lia
  DecimalString Permutation Sorted.
Import ListNotations.
Open Scope string_scope.
Open Scope list_scope.
Open Scope Z_scope.

(** ** JavaScript numbers and the conversions behind [Math.min],
    [Math.max] and a template literal

    The private room id is built by
    [`private-${Math.min(socket.id, toUserId)}-${Math.max(socket.id, toUserId)}`].
    Both ids are strings; [Math.min] and [Math.max] apply ToNumber to each
    argument and the template literal applies ToString to the result.  A
    Number is NaN, an infinity, the negative zero, or a finite value given
    by its exact rational (the positive zero is [Val 0]); strings are taken
    as sequences of ASCII characters, which is what a Socket.IO id is. *)

Module JS.

(** the Number values *)
Inductive Number : Type :=
| NaN
| PosInf
| NegInf
| NegZero
| Val (q : Qc).

(** StrWhiteSpaceChar, the ASCII ones: tab, line feed, vertical tab, form
    feed, carriage return, space *)
Definition is_ws (c : ascii) : bool :=
  match nat_of_ascii c with
  | 9 | 10 | 11 | 12 | 13 | 32 => true
  | _ => false
  end%nat.

Fixpoint trim_left (l : list ascii) : list ascii :=
  match l with
  | c :: l' => if is_ws c then trim_left l' else l
  | [] => []
  end.

(** the optional white space on both sides of a StringNumericLiteral *)
Definition trim (l : list ascii) : list ascii :=
  rev (trim_left (rev (trim_left l))).

(** the value of a digit in a base up to 16 *)
Definition digit_of (base : Z) (c : ascii) : option Z :=
  let n := Z.of_nat (nat_of_ascii c) in
  let d :=
    if (48 <=? n) && (n <=? 57) then n - 48
    else if (97 <=? n) && (n <=? 102) then n - 87
    else if (65 <=? n) && (n <=? 70) then n - 55
    else 16 in
  if d <? base then Some d else None.

(** reads the longest run of digits: their value on top of [acc], their
    number on top of [cnt], and what follows them *)
Fixpoint take_digits (base : Z) (l : list ascii) (acc : Z) (cnt : nat)
  : Z * nat * list ascii :=
  match l with
  | c :: l' =>
      match digit_of base c with
      | Some d => take_digits base l' (base * acc + d) (S cnt)
      | None => (acc, cnt, l)
      end
  | [] => (acc, cnt, [])
  end.

(** [p / (q * 2^ex)] as a fraction of two integers *)
Definition scale2 (p : Z) (q : Z) (ex : Z) : Z * Z :=
  if 0 <=? ex then (p, q * 2 ^ ex) else (p * 2 ^ (- ex), q).

(** [2^ex] *)
Definition pow2Q (ex : Z) : Q :=
  if 0 <=? ex then inject_Z (2 ^ ex) else 1 # Z.to_pos (2 ^ (- ex)).

(** the Number value for the rational [p/q] (with the sign [neg]): the
    nearest binary64 value, ties to the even significand; beyond the
    largest finite value an infinity, below half the smallest a zero *)
Definition round_double (neg : bool) (p : Z) (q : positive) : Number :=
  if p <=? 0 then (if neg then NegZero else Val (Q2Qc 0)) else
  let e0 := Z.log2 p - Z.log2 (Zpos q) in
  let '(n0, d0) := scale2 p (Zpos q) e0 in
  let e := if d0 <=? n0 then e0 else e0 - 1 in
  let ex := Z.max (e - 52) (-1074) in
  let '(num, den) := scale2 p (Zpos q) ex in
  let m := num / den in
  let r := num mod den in
  let m' :=
    match 2 * r ?= den with
    | Lt => m
    | Gt => m + 1
    | Eq => if Z.even m then m else m + 1
    end in
  if m' =? 0 then (if neg then NegZero else Val (Q2Qc 0))
  else if (ex + 53 >? 1024) || ((ex + 53 =? 1024) && (2 ^ 53 <=? m'))
  then (if neg then NegInf else PosInf)
  else
    let v := (inject_Z m' * pow2Q ex)%Q in
    Val (Q2Qc (if neg then Qopp v else v)).

(** the Number value for [digits * 10^e10] *)
Definition decimal_value (neg : bool) (digits : Z) (e10 : Z) : Number :=
  if 0 <=? e10 then round_double neg (digits * 10 ^ e10) 1
  else round_double neg digits (Z.to_pos (10 ^ (- e10))).

(** ExponentPart, or nothing, up to the end of the literal *)
Definition parse_exponent (l : list ascii) : option Z :=
  match l with
  | [] => Some 0
  | c :: l1 =>
      if (Ascii.eqb c "e" || Ascii.eqb c "E")%char%bool then
        let '(neg, l2) :=
          match l1 with
          | s :: l2 =>
              if Ascii.eqb s "-" then (true, l2)
              else if Ascii.eqb s "+" then (false, l2)
              else (false, l1)
          | [] => (false, l1)
          end in
        match take_digits 10 l2 0 0 with
        | (_, O, _) => None
        | (v, _, []) => Some (if neg then - v else v)
        | _ => None
        end
      else None
  end.

Definition Infinity_lit : list ascii := list_ascii_of_string "Infinity".

Definition list_ascii_eqb (a b : list ascii) : bool :=
  String.eqb (string_of_list_ascii a) (string_of_list_ascii b).

(** StrUnsignedDecimalLiteral: Infinity, digits with an optional fraction
    and exponent, or a fraction alone; anything else is NaN *)
Definition parse_unsigned_decimal (neg : bool) (l : list ascii) : Number :=
  if list_ascii_eqb l Infinity_lit then (if neg then NegInf else PosInf) else
  let '(ip, ni, rest) := take_digits 10 l 0 0 in
  match rest with
  | c :: rest1 =>
      if Ascii.eqb c "." then
        let '(dp, nall, rest2) := take_digits 10 rest1 ip ni in
        match nall with
        | O => NaN
        | _ =>
            match parse_exponent rest2 with
            | Some e => decimal_value neg dp (e - Z.of_nat (nall - ni))
            | None => NaN
            end
        end
      else
        match ni, parse_exponent rest with
        | S _, Some e => decimal_value neg ip e
        | _, _ => NaN
        end
  | [] =>
      match ni with
      | O => NaN
      | _ => decimal_value neg ip 0
      end
  end.

(** NonDecimalIntegerLiteral: 0x, 0o or 0b and digits of that base; [None]
    when the literal does not start that way *)
Definition parse_non_decimal (l : list ascii) : option Number :=
  match l with
  | z :: p :: ds =>
      if Ascii.eqb z "0" then
        let base :=
          if (Ascii.eqb p "x" || Ascii.eqb p "X")%char then Some 16
          else if (Ascii.eqb p "o" || Ascii.eqb p "O")%char then Some 8
          else if (Ascii.eqb p "b" || Ascii.eqb p "B")%char then Some 2
          else None in
        match base with
        | Some b =>
            match take_digits b ds 0 0 with
            | (_, O, _) => Some NaN
            | (v, _, []) => Some (round_double false v 1)
            | _ => Some NaN
            end
        | None => None
        end
      else None
  | _ => None
  end.

(** ToNumber applied to a string (StringToNumber): the empty string is
    [+0], a StringNumericLiteral has its value, anything else is NaN *)
Definition StringToNumber (s : string) : Number :=
  match trim (list_ascii_of_string s) with
  | [] => Val (Q2Qc 0)
  | (c :: l') as l =>
      match parse_non_decimal l with
      | Some n => n
      | None =>
          if Ascii.eqb c "-" then parse_unsigned_decimal true l'
          else if Ascii.eqb c "+" then parse_unsigned_decimal false l'
          else parse_unsigned_decimal false l
      end
  end.

(** [x < y] on Numbers, false when one is NaN; the two zeros are equal *)
Definition ltb (x y : Number) : bool :=
  match x, y with
  | NaN, _ | _, NaN => false
  | PosInf, _ => false
  | _, NegInf => false
  | NegInf, _ => true
  | _, PosInf => true
  | NegZero, NegZero => false
  | NegZero, Val q => match (Q2Qc 0 ?= q)%Qc with Lt => true | _ => false end
  | Val p, NegZero => match (p ?= Q2Qc 0)%Qc with Lt => true | _ => false end
  | Val p, Val q => match (p ?= q)%Qc with Lt => true | _ => false end
  end.

Definition is_neg_zero (x : Number) : bool :=
  match x with NegZero => true | _ => false end.

Definition is_pos_zero (x : Number) : bool :=
  match x with
  | Val q => match (q ?= Q2Qc 0)%Qc with Eq => true | _ => false end
  | _ => false
  end.

(** the loop of [Math.min] over the coerced arguments, from
    [lowest = +Infinity]: NaN wins, [-0] is below [+0] *)
Fixpoint min_loop (lowest : Number) (coerced : list Number) : Number :=
  match coerced with
  | [] => lowest
  | NaN :: _ => NaN
  | number :: rest =>
      let lowest1 :=
        if is_neg_zero number && is_pos_zero lowest then NegZero else lowest in
      let lowest2 := if ltb number lowest1 then number else lowest1 in
      min_loop lowest2 rest
  end.

(** the loop of [Math.max], from [highest = -Infinity] *)
Fixpoint max_loop (highest : Number) (coerced : list Number) : Number :=
  match coerced with
  | [] => highest
  | NaN :: _ => NaN
  | number :: rest =>
      let highest1 :=
        if is_pos_zero number && is_neg_zero highest then Val (Q2Qc 0)
        else highest in
      let highest2 := if ltb highest1 number then number else highest1 in
      max_loop highest2 rest
  end.

(** [Math.min(...args)] on string arguments *)
Definition Math_min (args : list string) : Number :=
  min_loop PosInf (map StringToNumber args).

(** [Math.max(...args)] on string arguments *)
Definition Math_max (args : list string) : Number :=
  max_loop NegInf (map StringToNumber args).

(** [10^e] *)
Definition pow10Q (e : Z) : Q :=
  if 0 <=? e then inject_Z (10 ^ e) else 1 # Z.to_pos (10 ^ (- e)).

(** the number of decimal digits of [n >= 1] *)
Fixpoint count_digits (fuel : nat) (n : Z) : Z :=
  match fuel with
  | O => 0
  | S f => if n <? 10 then 1 else 1 + count_digits f (n / 10)
  end.

(** the least [i >= j] with [q <= p * 10^i] *)
Fixpoint lead_shift (fuel : nat) (p q j : Z) : Z :=
  match fuel with
  | O => j
  | S f => if q <=? p * 10 ^ j then j else lead_shift f p q (j + 1)
  end.

(** the [n] with [10^(n-1) <= p/q < 10^n], for [p/q > 0] *)
Definition decimal_exponent (p q : Z) : Z :=
  if q <=? p then count_digits (S (Z.to_nat (Z.log2 p))) (p / q)
  else 1 - lead_shift (S (Z.to_nat (Z.log2 q))) p q 1.

(** the decimal [v] reads back as the Number [x] *)
Definition rounds_to (x v : Q) : bool :=
  match round_double false (Qnum v) (Qden v) with
  | Val y => Qeq_bool y x
  | _ => false
  end.

(** the [(n, k, s)] of Number::toString: the fewest digits [k] whose
    decimal [s * 10^(n-k)] reads back as [x], the closest such [s], the
    even one on a tie; seventeen digits always do *)
Fixpoint shortest (fuel : nat) (k : Z) (x : Q) (n0 : Z) : Z * Z * Z :=
  match fuel with
  | O => (n0, k, Qfloor (x * pow10Q (k - n0)))
  | S f =>
      let s_lo := Qfloor (x * pow10Q (k - n0)) in
      let s_hi := s_lo + 1 in
      let v_lo := (inject_Z s_lo * pow10Q (n0 - k))%Q in
      let v_hi := (inject_Z s_hi * pow10Q (n0 - k))%Q in
      let lo := (n0, k, s_lo) in
      let hi := if s_hi =? 10 ^ k then (n0 + 1, k, 10 ^ (k - 1))
                else (n0, k, s_hi) in
      match rounds_to x v_lo, rounds_to x v_hi with
      | true, true =>
          match (x - v_lo ?= v_hi - x)%Q with
          | Lt => lo
          | Gt => hi
          | Eq => if Z.even s_lo then lo else hi
          end
      | true, false => lo
      | false, true => hi
      | false, false => shortest f (k + 1) x n0
      end
  end.

(** the decimal digits of a natural number *)
Definition digits_of (n : Z) : string :=
  NilZero.string_of_uint (N.to_uint (Z.to_N n)).

Fixpoint zeros (n : nat) : string :=
  match n with O => EmptyString | S n' => String "0"%char (zeros n') end.

(** [e+21], [e-7] *)
Definition exponent_suffix (e : Z) : string :=
  String "e"%char (String (if e <? 0 then "-"%char else "+"%char)
                          (digits_of (Z.abs e))).

(** the digits of a positive finite Number laid out as Number::toString
    does: plain up to 21 integer digits and down to 6 leading zeros,
    exponential beyond *)
Definition format_finite (x : Q) : string :=
  let '(n, k, s) :=
    shortest 17 1 x (decimal_exponent (Qnum x) (Zpos (Qden x))) in
  let ds := digits_of s in
  if (k <=? n) && (n <=? 21) then (ds ++ zeros (Z.to_nat (n - k)))%string
  else if (0 <? n) && (n <=? 21) then
    (substring 0 (Z.to_nat n) ds ++ "." ++
     substring (Z.to_nat n) (Z.to_nat (k - n)) ds)%string
  else if (-6 <? n) && (n <=? 0) then
    ("0." ++ zeros (Z.to_nat (- n)) ++ ds)%string
  else if k =? 1 then (ds ++ exponent_suffix (n - 1))%string
  else (substring 0 1 ds ++ "." ++ substring 1 (Z.to_nat (k - 1)) ds
        ++ exponent_suffix (n - 1))%string.

(** ToString applied to a Number (Number::toString, radix 10) *)
Definition NumberToString (x : Number) : string :=
  match x with
  | NaN => "NaN"
  | PosInf => "Infinity"
  | NegInf => "-Infinity"
  | NegZero => "0"
  | Val q =>
      match (q ?= Q2Qc 0)%Qc with
      | Eq => "0"
      | Lt => ("-" ++ format_finite (Qopp q))%string
      | Gt => format_finite q
      end
  end.

End JS.

(** ** Data model *)

(** [socket.id], the time of [new Date()], the [_id] of a document *)
Definition SocketId := string.
Definition Timestamp := Z.
Definition MessageId := N.

(** [const rooms = ['general', 'random', 'tech', 'gaming']] *)
Definition rooms : list string :=
  ["general"; "random"; "tech"; "gaming"]%string.

(** [rooms.includes(x)] *)
Definition includes (l : list string) (x : string) : bool :=
  existsb (String.eqb x) l.

(** A JavaScript object used as a map from string keys: the keys are
    unique and enumerate in insertion order (no key of the server is an
    array index: ids have twenty characters).  [obj_get] reads the keys of
    the object itself; what a plain object inherits from its prototype is
    [Object_prototype], with the handlers. *)
Section Obj.
Context {V : Type}.

Definition obj := list (string * V).

Fixpoint obj_get (o : obj) (k : string) : option V :=
  match o with
  | [] => None
  | (k', v) :: o' => if String.eqb k' k then Some v else obj_get o' k
  end.

(** [o[k] = v]: an existing key keeps its place *)
Fixpoint obj_set (o : obj) (k : string) (v : V) : obj :=
  match o with
  | [] => [(k, v)]
  | (k', v') :: o' =>
      if String.eqb k' k then (k, v) :: o' else (k', v') :: obj_set o' k v
  end.

(** [delete o[k]] *)
Definition obj_delete (o : obj) (k : string) : obj :=
  filter (fun kv => negb (String.eqb (fst kv) k)) o.

Definition obj_keys (o : obj) : list string := map fst o.
Definition obj_values (o : obj) : list V := map snd o.
End Obj.
Arguments obj V : clear implicits.

(** an entry of [users] (server.js:170-176) *)
Module User.
Record t := mk
  { id : SocketId; username : string; room : string; online : bool;
    joinedAt : Timestamp }.
Definition set_room (r : string) (u : t) : t :=
  mk (id u) (username u) r (online u) (joinedAt u).
Definition set_online (b : bool) (u : t) : t :=
  mk (id u) (username u) (room u) b (joinedAt u).
End User.

(** what [user_list] carries for one user *)
Module RosterEntry.
Record t := mk
  { id : SocketId; username : string; room : string; online : bool }.
End RosterEntry.

(** an element of [reactions: [{ userId: String, emoji: String }]] *)
Module Reaction.
Record t := mk { userId : string; emoji : string }.
Definition set_emoji (e : string) (r : t) : t := mk (userId r) e.
End Reaction.

(** a document of [messageSchema]; [_id], [createdAt] and [updatedAt] are
    the store's ([timestamps: true]), and so is the version key [__v],
    which Mongoose adds to every schema: 0 in a new document, incremented
    by the updates that move array elements *)
Module Message.
Record t := mk
  { _id : MessageId;
    sender : string;
    senderId : string;
    message : string;
    room : string;
    isPrivate : bool;
    recipientId : option string;
    delivered : bool;
    read : bool;
    reactions : list Reaction.t;
    edited : bool;
    image : option string;
    createdAt : Timestamp;
    updatedAt : Timestamp;
    __v : N }.

Definition set_reactions (rs : list Reaction.t) (m : t) : t :=
  mk (_id m) (sender m) (senderId m) (message m) (room m) (isPrivate m)
     (recipientId m) (delivered m) (read m) rs (edited m) (image m)
     (createdAt m) (updatedAt m) (__v m).
Definition set_message_edited (c : string) (m : t) : t :=
  mk (_id m) (sender m) (senderId m) c (room m) (isPrivate m)
     (recipientId m) (delivered m) (read m) (reactions m) true (image m)
     (createdAt m) (updatedAt m) (__v m).
Definition set_read (m : t) : t :=
  mk (_id m) (sender m) (senderId m) (message m) (room m) (isPrivate m)
     (recipientId m) (delivered m) true (reactions m) (edited m) (image m)
     (createdAt m) (updatedAt m) (__v m).
Definition set_updatedAt (now : Timestamp) (m : t) : t :=
  mk (_id m) (sender m) (senderId m) (message m) (room m) (isPrivate m)
     (recipientId m) (delivered m) (read m) (reactions m) (edited m)
     (image m) (createdAt m) now (__v m).
Definition set___v (v : N) (m : t) : t :=
  mk (_id m) (sender m) (senderId m) (message m) (room m) (isPrivate m)
     (recipientId m) (delivered m) (read m) (reactions m) (edited m)
     (image m) (createdAt m) (updatedAt m) v.
Definition stamp (i : MessageId) (now : Timestamp) (m : t) : t :=
  mk i (sender m) (senderId m) (message m) (room m) (isPrivate m)
     (recipientId m) (delivered m) (read m) (reactions m) (edited m)
     (image m) now now (__v m).

(** [new Message({sender, senderId, message, room, isPrivate,
    recipientId, image})] with the schema defaults; the id and the
    timestamps are written when the document is inserted *)
Definition new (sender senderId message room : string) (isPrivate : bool)
    (recipientId image : option string) : t :=
  mk 0%N sender senderId message room isPrivate recipientId
     true false [] false image 0 0 0%N.

(** the [required: true] paths: a required string must not be empty *)
Definition validate (m : t) : bool :=
  negb (String.eqb (sender m) "") && negb (String.eqb (senderId m) "")
  && negb (String.eqb (message m) "").
End Message.

(** the payload of [notification] *)
Inductive NotificationType := join | leave | private.

Module Notification.
Record t := mk
  { type : NotificationType; message : string; room : string }.
End Notification.

(** ** The message store

    The collection behind [Message]: documents in insertion order.  A
    query is evaluated when the store settles its promise. *)

Fixpoint insert_by_createdAt (m : Message.t) (l : list Message.t)
  : list Message.t :=
  match l with
  | [] => [m]
  | x :: l' =>
      if Message.createdAt m <=? Message.createdAt x then m :: l
      else x :: insert_by_createdAt m l'
  end.

(** [.sort({ createdAt: 1 })] *)
Definition sort_by_createdAt (l : list Message.t) : list Message.t :=
  fold_right insert_by_createdAt [] l.

(** [Message.find({ room }).sort({ createdAt: 1 }).limit(100)] *)
Definition find_room_history (room : string) (db : list Message.t)
  : list Message.t :=
  firstn 100
    (sort_by_createdAt
       (filter (fun m => String.eqb (Message.room m) room) db)).

(** [Message.findById(id)] *)
Definition findById (id : MessageId) (db : list Message.t)
  : option Message.t :=
  find (fun m => N.eqb (Message._id m) id) db.

(** the stored document with the id [id] is rewritten by [write] *)
Definition update_doc (id : MessageId) (write : Message.t -> Message.t)
    (db : list Message.t) : list Message.t :=
  map (fun x => if N.eqb (Message._id x) id then write x else x) db.

(** [Message.findByIdAndDelete(id)] *)
Definition delete_doc (id : MessageId) (db : list Message.t)
  : list Message.t :=
  filter (fun x => negb (N.eqb (Message._id x) id)) db.

(** ** The Socket.IO adapter

    The connected sockets, in connection order, each with the rooms it has
    joined; a socket is in the room named by its own id from the start. *)

Definition Sockets := list (SocketId * list string).

Definition connected (ss : Sockets) (sid : SocketId) : bool :=
  existsb (fun s => String.eqb (fst s) sid) ss.

Definition in_room (r : string) (s : SocketId * list string) : bool :=
  includes (snd s) r.

(** [socket.join(r)] *)
Definition socket_join (sid : SocketId) (r : string) (ss : Sockets)
  : Sockets :=
  map (fun s =>
         if String.eqb (fst s) sid
         then (fst s, if includes (snd s) r then snd s else snd s ++ [r])
         else s) ss.

(** [socket.leave(r)] *)
Definition socket_leave (sid : SocketId) (r : string) (ss : Sockets)
  : Sockets :=
  map (fun s =>
         if String.eqb (fst s) sid
         then (fst s, filter (fun x => negb (String.eqb x r)) (snd s))
         else s) ss.

(** the socket is taken out of the namespace before its [disconnect]
    handler runs *)
Definition socket_remove (sid : SocketId) (ss : Sockets) : Sockets :=
  filter (fun s => negb (String.eqb (fst s) sid)) ss.

(** ** Events *)

Inductive ClientEvent :=
| user_join (username : string)
| send_message (message room image : option string)
| edit_message (id : MessageId) (content : string)
| delete_message (id : MessageId)
| join_room (newRoom : string)
| typing_start
| typing_stop
| add_reaction (messageId : MessageId) (emoji : string)
| message_read (messageId : MessageId)
| private_message (toUserId : string) (message : string).

Inductive ServerEvent :=
| available_rooms (rs : list string)
| message_history (history : list Message.t)
| user_list (l : list RosterEntry.t)
| notification (n : Notification.t)
| receive_message (m : Message.t)
| message_updated (m : Message.t)
| message_deleted (id : MessageId)
| room_joined (room : string)
| typing_users (roomTyping : list string).

(** one packet handed to one socket *)
Definition Emit := (SocketId * ServerEvent)%type.

Section Fanout.
Variable ss : Sockets.

(** [io.emit(ev)] *)
Definition io_emit (ev : ServerEvent) : list Emit :=
  map (fun s => (fst s, ev)) ss.

(** [io.to(r).emit(ev)] *)
Definition io_to (r : string) (ev : ServerEvent) : list Emit :=
  map (fun s => (fst s, ev)) (filter (in_room r) ss).

(** [socket.emit(ev)]: nothing leaves on a closed socket *)
Definition socket_emit (sid : SocketId) (ev : ServerEvent) : list Emit :=
  if connected ss sid then [(sid, ev)] else [].

(** [socket.broadcast.to(r).emit(ev)] *)
Definition socket_broadcast_to (sid : SocketId) (r : string)
    (ev : ServerEvent) : list Emit :=
  map (fun s => (fst s, ev))
      (filter (fun s => in_room r s && negb (String.eqb (fst s) sid)) ss).
End Fanout.

(** ** Suspended handlers

    What a handler still has to do once the store settles the promise it
    awaits, with the locals it captured. *)

(** the change [add_reaction] made to the document it fetched, as Mongoose
    tracks it for [save()]: the emoji of the element at one index was
    assigned ([$set] of [reactions.<index>.emoji]), or an element was pushed
    ([$push]) *)
Inductive Delta :=
| SetEmoji (index : nat) (emoji : string)
| Push (r : Reaction.t).

Inductive Task :=
| AwaitUserJoinHistory (sid : SocketId) (username : string)
| AwaitSendSave (targetRoom : string) (newMessage : Message.t)
| AwaitEditUpdate (id : MessageId) (content : string)
| AwaitDeleteFind (id : MessageId)
| AwaitDeleteDelete (id : MessageId) (room : string)
| AwaitJoinRoomHistory (sid : SocketId) (newRoom : string)
| AwaitReactionFind (sid : SocketId) (messageId : MessageId) (emoji : string)
| AwaitReactionSave (message : Message.t) (delta : Delta)
| AwaitReadUpdate (messageId : MessageId)
| AwaitPrivateSave (sid : SocketId) (toUserId : string)
    (senderName : string) (newMessage : Message.t).

(** the two maps of the process, the adapter, the ids of the connections
    that were closed, the collection with the id the next document gets,
    the suspended handlers, and the one thing of the environment the
    handlers depend on: whether [SENTRY_DSN] is set.  [Sentry.init]
    (server.js:24) installs its listener for [unhandledRejection] only
    with a DSN; without one a rejection nobody handles ends the process. *)
Record State := mkState
  { users : obj User.t;
    typingUsers : obj string;
    sockets : Sockets;
    closed : list SocketId;
    db : list Message.t;
    next_id : MessageId;
    pending : list Task;
    SENTRY_DSN : bool }.

Definition init : State := mkState [] [] [] [] [] 1%N [] false.

Definition set_users (us : obj User.t) (s : State) : State :=
  mkState us (typingUsers s) (sockets s) (closed s) (db s) (next_id s)
          (pending s) (SENTRY_DSN s).
Definition set_typingUsers (tu : obj string) (s : State) : State :=
  mkState (users s) tu (sockets s) (closed s) (db s) (next_id s) (pending s)
          (SENTRY_DSN s).
Definition set_sockets (ss : Sockets) (s : State) : State :=
  mkState (users s) (typingUsers s) ss (closed s) (db s) (next_id s)
          (pending s) (SENTRY_DSN s).
Definition set_closed (c : list SocketId) (s : State) : State :=
  mkState (users s) (typingUsers s) (sockets s) c (db s) (next_id s)
          (pending s) (SENTRY_DSN s).
Definition set_db (d : list Message.t) (s : State) : State :=
  mkState (users s) (typingUsers s) (sockets s) (closed s) d (next_id s)
          (pending s) (SENTRY_DSN s).
Definition set_next_id (i : MessageId) (s : State) : State :=
  mkState (users s) (typingUsers s) (sockets s) (closed s) (db s) i
          (pending s) (SENTRY_DSN s).
Definition set_pending (p : list Task) (s : State) : State :=
  mkState (users s) (typingUsers s) (sockets s) (closed s) (db s)
          (next_id s) p (SENTRY_DSN s).
Definition set_SENTRY_DSN (b : bool) (s : State) : State :=
  mkState (users s) (typingUsers s) (sockets s) (closed s) (db s)
          (next_id s) (pending s) b.

(** the process started with [SENTRY_DSN] in its environment *)
Definition init_sentry : State := set_SENTRY_DSN true init.

(** the handler reaches an [await] *)
Definition suspend (t : Task) (s : State) : State :=
  set_pending (pending s ++ [t]) s.

(** ** Handlers *)

(** [`private-${Math.min(socket.id, toUserId)}-${Math.max(socket.id, toUserId)}`]
    (server.js:352) *)
Definition deriveRoomId (socket_id toUserId : string) : string :=
  ("private-" ++ JS.NumberToString (JS.Math_min [socket_id; toUserId])
   ++ "-" ++ JS.NumberToString (JS.Math_max [socket_id; toUserId]))%string.

(** [a || b] on an optional string: undefined and the empty string are
    falsy *)
Definition or_else (a : option string) (b : string) : string :=
  match a with
  | Some x => if String.eqb x "" then b else x
  | None => b
  end.

(** [image || null] *)
Definition or_null (a : option string) : option string :=
  match a with
  | Some x => if String.eqb x "" then None else Some x
  | None => None
  end.

(** the body stored for a message sent without text *)
Definition image_placeholder : string := "ğŸ“· Image".

(** [u => ({ id: u.id, username: u.username, room: u.room, online: u.online })] *)
Definition roster_entry (u : User.t) : RosterEntry.t :=
  RosterEntry.mk (User.id u) (User.username u) (User.room u) (User.online u).

(** [Object.values(users).map(...)], as [user_join] and [join_room] send it *)
Definition user_list_all (us : obj User.t) : list RosterEntry.t :=
  map roster_entry (obj_values us).

(** [Object.values(users).filter(u => u.online).map(...)], as [disconnect]
    sends it *)
Definition user_list_online (us : obj User.t) : list RosterEntry.t :=
  map roster_entry (filter User.online (obj_values us)).

(** [users[id]?.room === room] *)
Definition user_in_room (us : obj User.t) (room : string) (id : string)
  : bool :=
  match obj_get us id with
  | Some u => String.eqb (User.room u) room
  | None => false
  end.

(** [ids.map(id => typingUsers[id])]; every id is a key of [typingUsers] *)
Definition typing_names (tu : obj string) (ids : list string)
  : list string :=
  map (fun id => match obj_get tu id with Some n => n | None => "" end) ids.

(** [reactions.findIndex(p)]: -1 when no element satisfies [p] *)
Fixpoint findIndex {A : Type} (p : A -> bool) (l : list A) : Z :=
  match l with
  | [] => -1
  | x :: l' =>
      if p x then 0
      else let i := findIndex p l' in if i >? -1 then i + 1 else -1
  end.

(** [l[i].emoji = e] *)
Fixpoint set_emoji_at (i : nat) (e : string) (l : list Reaction.t)
  : list Reaction.t :=
  match l, i with
  | [], _ => []
  | r :: l', O => Reaction.set_emoji e r :: l'
  | r :: l', S i' => r :: set_emoji_at i' e l'
  end.

(** the reaction upsert of [add_reaction] (server.js:315-320) *)
Definition upsert_reaction (socket_id emoji : string)
    (reactions : list Reaction.t) : list Reaction.t :=
  let existingIndex :=
    findIndex (fun r => String.eqb (Reaction.userId r) socket_id) reactions in
  if existingIndex >? -1
  then set_emoji_at (Z.to_nat existingIndex) emoji reactions
  else reactions ++ [Reaction.mk socket_id emoji].

(** what Mongoose records of that change *)
Definition reaction_delta (socket_id emoji : string)
    (reactions : list Reaction.t) : Delta :=
  let existingIndex :=
    findIndex (fun r => String.eqb (Reaction.userId r) socket_id) reactions in
  if existingIndex >? -1
  then SetEmoji (Z.to_nat existingIndex) emoji
  else Push (Reaction.mk socket_id emoji).

(** the names every object inherits from [Object.prototype]: [users] is
    a plain object ([const users = {}], server.js:126), so [users[k]] is a
    function, or the prototype itself, for each of them *)
Definition Object_prototype : list string :=
  ["constructor"; "__defineGetter__"; "__defineSetter__"; "hasOwnProperty";
   "__lookupGetter__"; "__lookupSetter__"; "isPrototypeOf";
   "propertyIsEnumerable"; "toString"; "valueOf"; "__proto__";
   "toLocaleString"]%string.

(** whether [users[k]] is truthy for a key [k] the client chose: an entry
    of the registry, or what the prototype has under that name.  (The
    handlers read [users[socket.id]] as well, but a [socket.id] is twenty
    characters the server drew, never one of these names.) *)
Definition truthy_at (us : obj User.t) (k : string) : bool :=
  match obj_get us k with
  | Some _ => true
  | None => includes Object_prototype k
  end.

(** [user_join] up to its [await] (server.js:168-181) *)
Definition handle_user_join (sid : SocketId) (now : Timestamp) (username : string)
    (s : State) : State * list Emit :=
  let s1 :=
    set_users (obj_set (users s) sid
                       (User.mk sid username "general" true now)) s in
  let s2 := set_sockets (socket_join sid "general" (sockets s1)) s1 in
  (suspend (AwaitUserJoinHistory sid username) s2,
   socket_emit (sockets s2) sid (available_rooms rooms)).

(** [send_message] up to its [await] (server.js:198-213) *)
Definition handle_send_message (sid : SocketId)
    (message room image : option string) (s : State) : State * list Emit :=
  match obj_get (users s) sid with
  | None => (s, [])
  | Some user =>
      let targetRoom := or_else room (User.room user) in
      let newMessage :=
        Message.new (User.username user) sid
                    (or_else message image_placeholder) targetRoom false
                    None (or_null image) in
      (suspend (AwaitSendSave targetRoom newMessage) s, [])
  end.

(** [join_room] up to its [await] (server.js:253-274) *)
Definition handle_join_room (sid : SocketId) (newRoom : string) (s : State)
  : State * list Emit :=
  match obj_get (users s) sid with
  | None => (s, [])
  | Some user =>
      if negb (includes rooms newRoom) || String.eqb (User.room user) newRoom
      then (s, [])
      else
        let oldRoom := User.room user in
        let ss1 := socket_leave sid oldRoom (sockets s) in
        let out1 :=
          socket_broadcast_to ss1 sid oldRoom
            (notification
               (Notification.mk leave
                  (User.username user ++ " left the room")%string oldRoom)) in
        let ss2 := socket_join sid newRoom ss1 in
        let us := obj_set (users s) sid (User.set_room newRoom user) in
        let out2 :=
          socket_broadcast_to ss2 sid newRoom
            (notification
               (Notification.mk join
                  (User.username user ++ " joined the room")%string
                  newRoom)) in
        (suspend (AwaitJoinRoomHistory sid newRoom)
                 (set_users us (set_sockets ss2 s)),
         out1 ++ out2)
  end.

(** [typing_start] (server.js:286-296) *)
Definition handle_typing_start (sid : SocketId) (s : State)
  : State * list Emit :=
  match obj_get (users s) sid with
  | None => (s, [])
  | Some user =>
      let tu := obj_set (typingUsers s) sid (User.username user) in
      let roomTyping :=
        typing_names tu
          (filter (fun id => user_in_room (users s) (User.room user) id
                             && negb (String.eqb id sid))
                  (obj_keys tu)) in
      (set_typingUsers tu s,
       socket_broadcast_to (sockets s) sid (User.room user)
                           (typing_users roomTyping))
  end.

(** [typing_stop] (server.js:298-308) *)
Definition handle_typing_stop (sid : SocketId) (s : State)
  : State * list Emit :=
  match obj_get (users s) sid with
  | None => (s, [])
  | Some user =>
      let tu := obj_delete (typingUsers s) sid in
      let roomTyping :=
        typing_names tu
          (filter (user_in_room (users s) (User.room user)) (obj_keys tu)) in
      (set_typingUsers tu s,
       socket_broadcast_to (sockets s) sid (User.room user)
                           (typing_users roomTyping))
  end.

(** [private_message] up to its [await] (server.js:346-364) *)
Definition handle_private_message (sid : SocketId) (toUserId message : string)
    (s : State) : State * list Emit :=
  match obj_get (users s) sid with
  | None => (s, [])
  | Some sender =>
      if truthy_at (users s) toUserId then
        let privateRoomId := deriveRoomId sid toUserId in
        let newMessage :=
          Message.new (User.username sender) sid message privateRoomId true
                      (Some toUserId) None in
        (suspend (AwaitPrivateSave sid toUserId (User.username sender)
                                   newMessage) s, [])
      else (s, [])
  end.

(** the [disconnect] handler (server.js:379-401); the socket has left the
    namespace and all its rooms when it runs *)
Definition handle_disconnect (sid : SocketId) (s : State)
  : State * list Emit :=
  match obj_get (users s) sid with
  | None => (s, [])
  | Some user =>
      let us1 := obj_set (users s) sid (User.set_online false user) in
      let tu := obj_delete (typingUsers s) sid in
      let out1 :=
        socket_broadcast_to (sockets s) sid (User.room user)
          (notification
             (Notification.mk leave
                (User.username user ++ " disconnected")%string
                (User.room user))) in
      let out2 := io_emit (sockets s) (user_list (user_list_online us1)) in
      (set_users (obj_delete us1 sid) (set_typingUsers tu s), out1 ++ out2)
  end.

(** a client event reaches the handler registered on its socket;
    [edit_message], [delete_message], [add_reaction] and [message_read]
    start with their [await] *)
Definition handle (sid : SocketId) (now : Timestamp) (e : ClientEvent) (s : State)
  : State * list Emit :=
  match e with
  | user_join username => handle_user_join sid now username s
  | send_message message room image =>
      handle_send_message sid message room image s
  | edit_message id content => (suspend (AwaitEditUpdate id content) s, [])
  | delete_message id => (suspend (AwaitDeleteFind id) s, [])
  | join_room newRoom => handle_join_room sid newRoom s
  | typing_start => handle_typing_start sid s
  | typing_stop => handle_typing_stop sid s
  | add_reaction messageId emoji =>
      (suspend (AwaitReactionFind sid messageId emoji) s, [])
  | message_read messageId => (suspend (AwaitReadUpdate messageId) s, [])
  | private_message toUserId message =>
      handle_private_message sid toUserId message s
  end.

(** [await newMessage.save()] on a new document: validation, then the
    insertion, which assigns the id and the timestamps *)
Definition save_new (now : Timestamp) (m : Message.t) (s : State)
  : option (Message.t * State) :=
  if Message.validate m then
    let saved := Message.stamp (next_id s) now m in
    Some (saved, set_next_id (N.succ (next_id s)) (set_db (db s ++ [saved]) s))
  else None.

(** [findByIdAndUpdate(id, update, { new: true })] *)
Definition findByIdAndUpdate (id : MessageId) (update : Message.t -> Message.t)
    (now : Timestamp) (s : State) : option (Message.t * State) :=
  match findById id (db s) with
  | Some m =>
      let write x := Message.set_updatedAt now (update x) in
      Some (write m, set_db (update_doc id write (db s)) s)
  | None => None
  end.

(** [await message.save()] on the document [add_reaction] fetched and
    changed.  Mongoose does not write the array of the handler: it sends
    the change, with a new [updatedAt], to the document the store holds
    now.  A pushed element goes out as [$push] with [$inc] of [__v], to
    the document of that id whatever its version.  An assigned emoji goes
    out as [$set] of [reactions.<index>.emoji], to the document of that id
    and of the version that was fetched, so that the index still names the
    same element.  When no document matches, [save()] rejects: the
    document is gone, or its version has moved.  The copy of the handler
    gets the new [updatedAt] and, after a push, the next version.
    (Mongoose drops an assignment of the emoji the entry already has, and
    [save()] then writes nothing; here it is a write like any other: the
    stored array is the same, [updatedAt] is renewed.) *)

(** the update, applied to a document of the store *)
Definition apply_delta (now : Timestamp) (delta : Delta) (x : Message.t)
  : Message.t :=
  match delta with
  | SetEmoji index emoji =>
      Message.set_updatedAt now
        (Message.set_reactions
           (set_emoji_at index emoji (Message.reactions x)) x)
  | Push r =>
      Message.set_updatedAt now
        (Message.set___v (N.succ (Message.__v x))
           (Message.set_reactions (Message.reactions x ++ [r]) x))
  end.

(** what the filter of the update asks of the stored document, beside
    the id *)
Definition version_matches (delta : Delta) (message stored : Message.t)
  : bool :=
  match delta with
  | SetEmoji _ _ => N.eqb (Message.__v stored) (Message.__v message)
  | Push _ => true
  end.

(** the copy of the handler once the update went through *)
Definition saved_copy (now : Timestamp) (delta : Delta) (message : Message.t)
  : Message.t :=
  match delta with
  | SetEmoji _ _ => Message.set_updatedAt now message
  | Push _ =>
      Message.set_updatedAt now
        (Message.set___v (N.succ (Message.__v message)) message)
  end.

Definition save_reactions (now : Timestamp) (message : Message.t)
    (delta : Delta) (s : State) : option (Message.t * State) :=
  match findById (Message._id message) (db s) with
  | Some stored =>
      if version_matches delta message stored then
        Some (saved_copy now delta message,
              set_db (update_doc (Message._id message) (apply_delta now delta)
                                 (db s)) s)
      else None
  | None => None
  end.

(** the rest of a handler, once the promise it awaits is fulfilled: the
    store runs the query or the write, and the handler goes on to its
    emits, or to its next [await] ([delete_message] and [add_reaction]
    have two) *)
Definition resume (t : Task) (now : Timestamp) (s : State) : State * list Emit :=
  match t with
  | AwaitUserJoinHistory sid username =>
      let history := find_room_history "general" (db s) in
      (s,
       socket_emit (sockets s) sid (message_history history)
       ++ io_emit (sockets s) (user_list (user_list_all (users s)))
       ++ socket_broadcast_to (sockets s) sid "general"
            (notification
               (Notification.mk join (username ++ " joined the chat")%string
                                "general")))
  | AwaitSendSave targetRoom newMessage =>
      match save_new now newMessage s with
      | Some (saved, s') =>
          (s', io_to (sockets s') targetRoom (receive_message saved))
      | None => (s, [])
      end
  | AwaitEditUpdate id content =>
      match findByIdAndUpdate id (Message.set_message_edited content) now s with
      | Some (updated, s') =>
          (s', io_to (sockets s') (Message.room updated)
                     (message_updated updated))
      | None => (s, [])
      end
  | AwaitDeleteFind id =>
      match findById id (db s) with
      | Some message =>
          (suspend (AwaitDeleteDelete id (Message.room message)) s, [])
      | None => (s, [])
      end
  | AwaitDeleteDelete id room =>
      (set_db (delete_doc id (db s)) s,
       io_to (sockets s) room (message_deleted id))
  | AwaitJoinRoomHistory sid newRoom =>
      let history := find_room_history newRoom (db s) in
      (s,
       socket_emit (sockets s) sid (message_history history)
       ++ socket_emit (sockets s) sid (room_joined newRoom)
       ++ io_emit (sockets s) (user_list (user_list_all (users s))))
  | AwaitReactionFind sid messageId emoji =>
      match findById messageId (db s) with
      | Some message =>
          let message' :=
            Message.set_reactions
              (upsert_reaction sid emoji (Message.reactions message))
              message in
          let delta := reaction_delta sid emoji (Message.reactions message) in
          (suspend (AwaitReactionSave message' delta) s, [])
      | None => (s, [])
      end
  | AwaitReactionSave message delta =>
      match save_reactions now message delta s with
      | Some (saved, s') =>
          (s', io_to (sockets s') (Message.room saved) (message_updated saved))
      | None => (s, [])
      end
  | AwaitReadUpdate messageId =>
      match findByIdAndUpdate messageId Message.set_read now s with
      | Some (updated, s') =>
          (s', io_to (sockets s') (Message.room updated)
                     (message_updated updated))
      | None => (s, [])
      end
  | AwaitPrivateSave sid toUserId senderName newMessage =>
      match save_new now newMessage s with
      | Some (saved, s') =>
          (s',
           io_to (sockets s') sid (receive_message saved)
           ++ io_to (sockets s') toUserId (receive_message saved)
           ++ io_to (sockets s') toUserId
                (notification
                   (Notification.mk private
                      ("New private message from " ++ senderName)%string
                      (Message.room newMessage))))
      | None => (s, [])
      end
  end.

(** the [k]-th element taken out of a list *)
Fixpoint remove_nth {A : Type} (k : nat) (l : list A) : list A :=
  match l, k with
  | [], _ => []
  | _ :: l', O => l'
  | x :: l', S k' => x :: remove_nth k' l'
  end.

(** whether the [await] of a suspended handler sits in a [try]: all do
    but the history queries of [user_join] (server.js:181) and of
    [join_room] (server.js:274) *)
Definition caught (t : Task) : bool :=
  match t with
  | AwaitUserJoinHistory _ _ | AwaitJoinRoomHistory _ _ => false
  | _ => true
  end.

(** the process ends: the two maps, the connections and the suspended
    handlers are gone, no id of a connection is used again, and the
    collection is what it was; a process started again in the same
    environment goes on from there *)
Definition exit (s : State) : State :=
  mkState [] [] [] (map fst (sockets s) ++ closed s) (db s) (next_id s) []
          (SENTRY_DSN s).

(** the promise a suspended handler awaits is rejected.  In a [try] the
    handler logs the error and ends.  Outside, the rejection is handled by
    nobody: with the listener of Sentry it is reported and the server goes
    on, without it Node ends the process. *)
Definition reject (t : Task) (s : State) : State :=
  if caught t || SENTRY_DSN s then s else exit s.

(** ** The server as a transition system

    What can happen to the server: the transport opens a connection with a
    new id, a client event arrives on a connected socket, the transport
    closes a connection, or the store settles the promise of the [k]-th
    suspended handler, fulfilled ([ok]) or rejected. *)

Inductive Input :=
| Connect (sid : SocketId)
| Receive (sid : SocketId) (now : Timestamp) (e : ClientEvent)
| Disconnect (sid : SocketId)
| Settle (k : nat) (ok : bool) (now : Timestamp).

Definition step (s : State) (i : Input) : State * list Emit :=
  match i with
  | Connect sid =>
      if connected (sockets s) sid || includes (closed s) sid then (s, [])
      else (set_sockets (sockets s ++ [(sid, [sid])]) s, [])
  | Receive sid now e =>
      if connected (sockets s) sid then handle sid now e s else (s, [])
  | Disconnect sid =>
      if connected (sockets s) sid then
        handle_disconnect sid
          (set_closed (sid :: closed s)
                      (set_sockets (socket_remove sid (sockets s)) s))
      else (s, [])
  | Settle k ok now =>
      match nth_error (pending s) k with
      | Some t =>
          let s' := set_pending (remove_nth k (pending s)) s in
          if ok then resume t now s' else (reject t s', [])
      | None => (s, [])
      end
  end.

Fixpoint run (s : State) (inputs : list Input) : State * list Emit :=
  match inputs with
  | [] => (s, [])
  | i :: rest =>
      let '(s1, out1) := step s i in
      let '(s2, out2) := run s1 rest in
      (s2, out1 ++ out2)
  end.

(** the states the server can be in, started without or with
    [SENTRY_DSN] *)
Inductive reachable : State -> Prop :=
| reachable_init : reachable init
| reachable_init_sentry : reachable init_sentry
| reachable_step s i : reachable s -> reachable (fst (step s i)).

(** ** What holds between two turns of the event loop

    The registry has one entry per key, every entry carries its own key
    as id, is online and sits in a public room; a registered or typing id
    is a connected socket and is typing at most once; a socket is only
    ever in the room of its own id and in public rooms; a closed id is
    never connected again. *)

(** the handler left the two maps and the adapter alone *)
Definition same_registry (s s' : State) : Prop :=
  users s' = users s /\ typingUsers s' = typingUsers s
  /\ sockets s' = sockets s /\ closed s' = closed s.

Record Inv (s : State) : Prop := mkInv
  { inv_keys : NoDup (obj_keys (users s));
    inv_entries : forall k u, In (k, u) (users s) ->
        User.id u = k /\ User.online u = true /\ In (User.room u) rooms;
    inv_registered : forall k, In k (obj_keys (users s)) ->
        connected (sockets s) k = true;
    inv_typing : forall k, In k (obj_keys (typingUsers s)) ->
        In k (obj_keys (users s));
    inv_typing_keys : NoDup (obj_keys (typingUsers s));
    inv_sockets : NoDup (map fst (sockets s));
    inv_rooms : forall i rs r, In (i, rs) (sockets s) -> In r rs ->
        r = i \/ In r rooms;
    inv_own : forall i rs, In (i, rs) (sockets s) -> ~ In i rooms ->
        In i rs;
    inv_closed : forall k, In k (closed s) ->
        connected (sockets s) k = false }.

(** ** Vocabulary of the statements *)

(** the sockets of a room *)
Definition room_members (ss : Sockets) (r : string) : list SocketId :=
  map fst (filter (in_room r) ss).



(** every path but [reactions], [updatedAt] and [__v] *)
Definition same_but_reactions (m m' : Message.t) : Prop :=
  Message._id m' = Message._id m
  /\ Message.sender m' = Message.sender m
  /\ Message.senderId m' = Message.senderId m
  /\ Message.message m' = Message.message m
  /\ Message.room m' = Message.room m
  /\ Message.isPrivate m' = Message.isPrivate m
  /\ Message.recipientId m' = Message.recipientId m
  /\ Message.delivered m' = Message.delivered m
  /\ Message.read m' = Message.read m
  /\ Message.edited m' = Message.edited m
  /\ Message.image m' = Message.image m
  /\ Message.createdAt m' = Message.createdAt m.

(** one message is not younger than another *)
Definition older (a b : Message.t) : Prop :=
  Message.createdAt a <= Message.createdAt b.

(** the spec's words for the history of a room: the most recent [n] of its
    messages in order of creation *)
Definition most_recent (n : nat) (room : string) (db : list Message.t)
  : list Message.t :=
  let ordered :=
    sort_by_createdAt
      (filter (fun m => String.eqb (Message.room m) room) db) in
  skipn (List.length ordered - n) ordered.

(** [n] messages sent to the room random by the socket A, each one saved
    before the next is sent *)
Fixpoint chatter (n : nat) (now : Timestamp) : list Input :=
  match n with
  | O => []
  | S n' =>
      Receive "A" now (send_message (Some "hello") (Some "random") None)
      :: Settle 0 true now :: chatter n' (now + 1)
  end.

Definition busy_random : State :=
  fst (run init ([Connect "A"; Receive "A" 0 (user_join "alice");
                  Settle 0 true 0] ++ chatter 101 1)).

(** *** States to run the handlers on *)

Definition two_joined : State :=
  fst (run init [Connect "A"; Connect "B";
                 Receive "A" 1 (user_join "alice"); Settle 0 true 2;
                 Receive "B" 3 (user_join "bob")]).

Definition two_typing : State :=
  fst (run init [Connect "A"; Connect "B";
                 Receive "A" 1 (user_join "alice"); Settle 0 true 2;
                 Receive "B" 3 (user_join "bob"); Settle 0 true 4;
                 Receive "A" 5 typing_start; Receive "B" 6 typing_start]).

Definition one_message : State :=
  fst (run two_joined [Receive "A" 5 (send_message (Some "hi") None None);
                       Settle 1 true 6]).

(** ** The HTTP routes *)

(** what [GET /api/messages/:room] answers (server.js:146-154): the
    messages of the room in ascending order of creation, all of them, or
    the status 500 when the query is rejected *)
Inductive MessagesResponse :=
| MessagesJson (messages : list Message.t)
| MessagesError (status : Z) (error : string).

Definition get_messages (fulfilled : bool) (room : string)
    (db : list Message.t) : MessagesResponse :=
  if fulfilled
  then MessagesJson
         (sort_by_createdAt
            (filter (fun m => String.eqb (Message.room m) room) db))
  else MessagesError 500 "Failed to fetch messages".

(** the body of [GET /api/health] (server.js:134-144); [readyState] is
    [mongoose.connection.readyState] *)
Module Health.
Record t := mk
  { status : string; service : string; database : string;
    users_online : nat; timestamp : Timestamp }.
End Health.

Definition get_health (readyState : Z) (now : Timestamp) (us : obj User.t)
  : Health.t :=
  let dbStatus := if readyState =? 1 then "CONNECTED" else "DISCONNECTED" in
  Health.mk (if String.eqb dbStatus "CONNECTED" then "UP" else "DEGRADED")
            "chat-app-server" dbStatus (List.length (obj_keys us)) now.

(** ** More vocabulary *)

(** what never changes in a stored message: every path but [message],
    [reactions], [updatedAt] and [__v], and the flags [edited] and [read]
    once they are set *)
Definition same_identity (m m' : Message.t) : Prop :=
  Message._id m' = Message._id m
  /\ Message.sender m' = Message.sender m
  /\ Message.senderId m' = Message.senderId m
  /\ Message.room m' = Message.room m
  /\ Message.isPrivate m' = Message.isPrivate m
  /\ Message.recipientId m' = Message.recipientId m
  /\ Message.delivered m' = Message.delivered m
  /\ Message.image m' = Message.image m
  /\ Message.createdAt m' = Message.createdAt m
  /\ (Message.edited m = true -> Message.edited m' = true)
  /\ (Message.read m = true -> Message.read m' = true).

(** the shape of a message the handlers build: named sender, delivered,
    and either public with no recipient or private with a recipient, the
    derived room of the pair and no image *)
Definition well_shaped (m : Message.t) : Prop :=
  Message.delivered m = true
  /\ Message.sender m <> ""
  /\ Message.senderId m <> ""
  /\ (if Message.isPrivate m
      then exists r, Message.recipientId m = Some r
                     /\ Message.room m = deriveRoomId (Message.senderId m) r
                     /\ Message.image m = None
      else Message.recipientId m = None).

(** a suspended save holds a message of that shape, but for the names *)
Definition task_shaped (t : Task) : Prop :=
  match t with
  | AwaitSendSave _ m | AwaitPrivateSave _ _ _ m =>
      Message.delivered m = true
      /\ (if Message.isPrivate m
          then exists r, Message.recipientId m = Some r
                         /\ Message.room m = deriveRoomId (Message.senderId m) r
                         /\ Message.image m = None
          else Message.recipientId m = None)
  | _ => True
  end.
(** the message [send_message] builds *)
Definition sent_message (sid : SocketId) (u : User.t)
    (message room image : option string) : Message.t :=
  Message.new (User.username u) sid (or_else message image_placeholder)
              (or_else room (User.room u)) false None (or_null image).

(** the socket of a registered user is in the room the registry has for
    that user *)
Definition subscribed (s : State) : Prop :=
  forall k u, In (k, u) (users s) ->
              In k (room_members (sockets s) (User.room u)).

(** what one step can do to the collection and to the next id: nothing,
    insert a document under the next id, rewrite the documents of one id
    by a function that keeps their identity, or delete those of one id *)
Inductive db_change (d : list Message.t) (n : MessageId)
  : list Message.t -> MessageId -> Prop :=
| db_same : db_change d n d n
| db_insert x : Message._id x = n -> db_change d n (d ++ [x]) (N.succ n)
| db_update id write :
    (forall x, same_identity x (write x)) ->
    db_change d n (update_doc id write d) n
| db_delete id : db_change d n (delete_doc id d) n.

(** every stored id has been given out *)
Definition ids_below (d : list Message.t) (n : MessageId) : Prop :=
  Forall (fun m => (Message._id m < n)%N) d.

(** stored messages and suspended saves are well shaped *)
Definition shaped (s : State) : Prop :=
  Forall well_shaped (db s) /\ Forall task_shaped (pending s).

(** a user who has moved to the room random *)
Definition moved_to_random : State :=
  fst (run two_joined [Receive "A" 5 (join_room "random")]).

(** ** Reactions that do not overlap *)







(** a collection that grew out of another one with the reactions of
    every message untouched: each document is one of before, up to the
    paths other than the id and [reactions], or is new, without
    reactions and with an id not given out before *)
Definition keeps_reactions (d : list Message.t) (n : MessageId)
    (d' : list Message.t) (n' : MessageId) : Prop :=
  (n <= n')%N
  /\ forall y, In y d' ->
       (exists x, In x d /\ Message._id y = Message._id x
                  /\ Message.reactions y = Message.reactions x)
       \/ (Message.reactions y = [] /\ (n <= Message._id y)%N).



(** * Properties *)

(** ** Numbers: [Math.min] and [Math.max] do not depend on the order of
    their two arguments *)

Lemma Qccompare_antisym (p q : Qc) : (q ?= p)%Qc = CompOpp (p ?= q)%Qc.
Proof. unfold Qccompare. symmetry. apply Qcompare_antisym. Qed.

Lemma Qccompare_Eq (p q : Qc) : (p ?= q)%Qc = Eq -> p = q.
Proof. apply Qceq_alt. Qed.

Local Opaque Qccompare Q2Qc.

(** splits on every comparison of two rationals in the goal *)
Ltac cmp_cases :=
  repeat match goal with
  | |- context [(?a ?= ?b)%Qc] =>
      let E := fresh "E" in
      destruct (a ?= b)%Qc eqn:E; cbn;
      try (rewrite (Qccompare_antisym a b), E in *; cbn);
      try (apply Qccompare_Eq in E; subst)
  end.

Lemma min_loop_comm (x y : JS.Number) :
  JS.min_loop JS.PosInf [x; y] = JS.min_loop JS.PosInf [y; x].
Proof.
  destruct x as [| | | |p], y as [| | | |q]; cbn; try reflexivity.
  - cmp_cases; try reflexivity; try discriminate.
  - cmp_cases; try reflexivity; try discriminate.
  - rewrite (Qccompare_antisym p q).
    destruct (p ?= q)%Qc eqn:E; cbn; try reflexivity.
    apply Qccompare_Eq in E. now subst.
Qed.

Lemma max_loop_comm (x y : JS.Number) :
  JS.max_loop JS.NegInf [x; y] = JS.max_loop JS.NegInf [y; x].
Proof.
  destruct x as [| | | |p], y as [| | | |q]; cbn; try reflexivity.
  all: cmp_cases; try reflexivity; try discriminate.
  all: try congruence.
Qed.

Local Transparent Qccompare Q2Qc.

(** ** Objects as maps *)

Section ObjFacts.
Context {V : Type}.
Implicit Types (o : obj V) (k : string) (v : V).

Lemma obj_get_set_eq o k v : obj_get (obj_set o k v) k = Some v.
Proof.
  induction o as [|[k' v'] o IH]; simpl.
  - now rewrite String.eqb_refl.
  - destruct (String.eqb k' k) eqn:E; simpl.
    + now rewrite String.eqb_refl.
    + now rewrite E.
Qed.

Lemma obj_get_set_neq o k k' v :
  k' <> k -> obj_get (obj_set o k v) k' = obj_get o k'.
Proof.
  intros Hne. induction o as [|[k0 v0] o IH]; simpl.
  - destruct (String.eqb_spec k k'); congruence.
  - destruct (String.eqb_spec k0 k); simpl.
    + subst k0. destruct (String.eqb_spec k k'); congruence.
    + now rewrite IH.
Qed.

Lemma obj_get_Some_In o k v : obj_get o k = Some v -> In (k, v) o.
Proof.
  induction o as [|[k0 v0] o IH]; simpl; [discriminate|].
  destruct (String.eqb_spec k0 k); intros H.
  - injection H as ->. subst. now left.
  - right. auto.
Qed.

Lemma obj_get_None_keys o k : obj_get o k = None <-> ~ In k (obj_keys o).
Proof.
  induction o as [|[k0 v0] o IH]; simpl; [tauto|].
  destruct (String.eqb_spec k0 k); split; intros H.
  - discriminate.
  - exfalso. apply H. now left.
  - intros [?|?]; [congruence|]. now apply IH.
  - apply IH. tauto.
Qed.

Lemma obj_get_In_keys o k v : obj_get o k = Some v -> In k (obj_keys o).
Proof.
  intros H. apply obj_get_Some_In in H.
  unfold obj_keys. now apply (in_map fst) in H.
Qed.

Lemma obj_set_keys_present o k v v' :
  obj_get o k = Some v' -> obj_keys (obj_set o k v) = obj_keys o.
Proof.
  induction o as [|[k0 v0] o IH]; simpl; [discriminate|].
  destruct (String.eqb_spec k0 k); intros H; simpl.
  - now subst.
  - now rewrite IH.
Qed.

Lemma obj_set_keys_absent o k v :
  obj_get o k = None -> obj_keys (obj_set o k v) = obj_keys o ++ [k].
Proof.
  induction o as [|[k0 v0] o IH]; simpl; [reflexivity|].
  destruct (String.eqb_spec k0 k); intros H; simpl.
  - discriminate.
  - now rewrite IH.
Qed.

Lemma obj_set_In o k v kv :
  In kv (obj_set o k v) -> kv = (k, v) \/ In kv o.
Proof.
  induction o as [|[k0 v0] o IH]; simpl.
  - intros [<-|[]]. now left.
  - destruct (String.eqb_spec k0 k); simpl.
    + intros [<-|H]; [now left|right; now right].
    + intros [<-|H]; [right; now left|].
      destruct (IH H); [now left|right; now right].
Qed.

Lemma obj_set_In_nodup o k v kv :
  NoDup (obj_keys o) ->
  In kv (obj_set o k v) -> kv = (k, v) \/ (In kv o /\ fst kv <> k).
Proof.
  induction o as [|[k0 v0] o IH]; simpl; intros ND.
  - intros [<-|[]]. now left.
  - inversion ND as [|? ? Hnin ND']; subst.
    destruct (String.eqb_spec k0 k); simpl.
    + subst k0. intros [<-|H]; [now left|right].
      split; [now right|]. intros <-. apply Hnin.
      unfold obj_keys. now apply (in_map fst) in H.
    + intros [<-|H]; [right; split; [now left|assumption]|].
      destruct (IH ND' H) as [?|[? ?]]; [now left|right; split; [now right|assumption]].
Qed.

Lemma obj_set_In_other o k v kv :
  In kv o -> fst kv <> k -> In kv (obj_set o k v).
Proof.
  induction o as [|[k0 v0] o IH]; simpl; [tauto|].
  intros [<-|H] Hne; simpl in *.
  - destruct (String.eqb_spec k0 k); [contradiction|now left].
  - destruct (String.eqb_spec k0 k); right; auto.
Qed.

Lemma obj_set_nodup o k v :
  NoDup (obj_keys o) -> NoDup (obj_keys (obj_set o k v)).
Proof.
  intros ND. destruct (obj_get o k) eqn:E.
  - now rewrite (obj_set_keys_present _ _ _ _ E).
  - rewrite (obj_set_keys_absent _ _ _ E).
    apply obj_get_None_keys in E.
    apply NoDup_app; [assumption|repeat constructor; simpl; tauto|].
    intros x Hx [<-|[]]. contradiction.
Qed.

Lemma obj_set_keys_In o k v k' :
  In k' (obj_keys (obj_set o k v)) <-> k' = k \/ In k' (obj_keys o).
Proof.
  destruct (obj_get o k) eqn:E.
  - rewrite (obj_set_keys_present _ _ _ _ E). split; [tauto|].
    intros [->|?]; [|assumption]. eapply obj_get_In_keys; eauto.
  - rewrite (obj_set_keys_absent _ _ _ E), in_app_iff. simpl.
    split; intros [?|?]; auto. destruct H; auto; contradiction.
Qed.

Lemma obj_delete_In o k kv :
  In kv (obj_delete o k) <-> In kv o /\ fst kv <> k.
Proof.
  unfold obj_delete. rewrite filter_In.
  destruct (String.eqb_spec (fst kv) k); simpl; split; intros [? ?];
    split; congruence.
Qed.

Lemma obj_delete_keys o k :
  obj_keys (obj_delete o k)
  = filter (fun k' => negb (String.eqb k' k)) (obj_keys o).
Proof.
  induction o as [|[k0 v0] o IH]; simpl; [reflexivity|].
  destruct (String.eqb k0 k); simpl; now rewrite IH.
Qed.

Lemma obj_delete_keys_In o k k' :
  In k' (obj_keys (obj_delete o k)) <-> In k' (obj_keys o) /\ k' <> k.
Proof.
  rewrite obj_delete_keys, filter_In.
  destruct (String.eqb_spec k' k); simpl; split; intros [? ?];
    split; congruence.
Qed.

Lemma obj_delete_nodup o k :
  NoDup (obj_keys o) -> NoDup (obj_keys (obj_delete o k)).
Proof. rewrite obj_delete_keys. apply NoDup_filter. Qed.

Lemma obj_get_delete_eq o k : obj_get (obj_delete o k) k = None.
Proof. apply obj_get_None_keys. rewrite obj_delete_keys_In. tauto. Qed.
End ObjFacts.

(** ** The adapter *)

Lemma connected_In ss sid : connected ss sid = true <-> In sid (map fst ss).
Proof.
  unfold connected. rewrite existsb_exists, in_map_iff.
  split; intros [x [H1 H2]]; exists x.
  - apply String.eqb_eq in H2. tauto.
  - rewrite String.eqb_eq. tauto.
Qed.

Lemma connected_false ss sid : connected ss sid = false <-> ~ In sid (map fst ss).
Proof.
  rewrite <- connected_In. destruct (connected ss sid); split; congruence.
Qed.

Lemma socket_join_ids sid r ss : map fst (socket_join sid r ss) = map fst ss.
Proof.
  unfold socket_join. rewrite map_map. apply map_ext.
  intros [i rs]; simpl. now destruct (String.eqb i sid).
Qed.

Lemma socket_leave_ids sid r ss : map fst (socket_leave sid r ss) = map fst ss.
Proof.
  unfold socket_leave. rewrite map_map. apply map_ext.
  intros [i rs]; simpl. now destruct (String.eqb i sid).
Qed.

Lemma socket_remove_ids sid ss :
  map fst (socket_remove sid ss)
  = filter (fun k => negb (String.eqb k sid)) (map fst ss).
Proof.
  induction ss as [|[i rs] ss IH]; simpl; [reflexivity|].
  destruct (String.eqb i sid); simpl; now rewrite IH.
Qed.

Lemma connected_join sid r ss t :
  connected (socket_join sid r ss) t = connected ss t.
Proof.
  destruct (connected ss t) eqn:E.
  - apply connected_In. rewrite socket_join_ids. now apply connected_In.
  - apply connected_false. rewrite socket_join_ids. now apply connected_false.
Qed.

Lemma connected_leave sid r ss t :
  connected (socket_leave sid r ss) t = connected ss t.
Proof.
  destruct (connected ss t) eqn:E.
  - apply connected_In. rewrite socket_leave_ids. now apply connected_In.
  - apply connected_false. rewrite socket_leave_ids. now apply connected_false.
Qed.

Lemma connected_remove sid ss t :
  connected (socket_remove sid ss) t = true
  <-> connected ss t = true /\ t <> sid.
Proof.
  rewrite !connected_In, socket_remove_ids, filter_In.
  destruct (String.eqb_spec t sid); simpl; split; intros [? ?];
    split; congruence.
Qed.

Lemma includes_In l x : includes l x = true <-> In x l.
Proof.
  unfold includes. rewrite existsb_exists. split.
  - intros [y [H1 H2]]. apply String.eqb_eq in H2. now subst.
  - intros H. exists x. now rewrite String.eqb_refl.
Qed.

Lemma includes_false l x : includes l x = false <-> ~ In x l.
Proof.
  rewrite <- includes_In. destruct (includes l x); split; congruence.
Qed.

Lemma socket_join_In sid r ss i rs :
  In (i, rs) (socket_join sid r ss) ->
  exists rs0, In (i, rs0) ss /\ (rs = rs0 \/ (i = sid /\ rs = rs0 ++ [r])).
Proof.
  unfold socket_join. rewrite in_map_iff. intros [[i0 rs0] [H Hin]].
  simpl in H. destruct (String.eqb_spec i0 sid).
  - injection H as <- <-. exists rs0. split; [assumption|].
    destruct (includes rs0 r); auto.
  - injection H as <- <-. exists rs0. auto.
Qed.

Lemma socket_leave_In sid r ss i rs :
  In (i, rs) (socket_leave sid r ss) ->
  exists rs0, In (i, rs0) ss /\
    (rs = rs0 \/
     (i = sid /\ rs = filter (fun x => negb (String.eqb x r)) rs0)).
Proof.
  unfold socket_leave. rewrite in_map_iff. intros [[i0 rs0] [H Hin]].
  simpl in H. destruct (String.eqb_spec i0 sid).
  - injection H as <- <-. exists rs0. auto.
  - injection H as <- <-. exists rs0. auto.
Qed.

Lemma socket_remove_In sid ss i rs :
  In (i, rs) (socket_remove sid ss) <-> In (i, rs) ss /\ i <> sid.
Proof.
  unfold socket_remove. rewrite filter_In. simpl.
  destruct (String.eqb_spec i sid); simpl; split; intros [? ?];
    split; congruence.
Qed.

Lemma general_public : In "general" rooms.
Proof. simpl. auto. Qed.

(** ** The invariant is kept by every handler *)

Lemma Inv_user_join s sid now username :
  connected (sockets s) sid = true ->
  Inv s -> Inv (fst (handle_user_join sid now username s)).
Proof.
  intros Hc [I1 I2 I3 I4 I4n I5 I6 I7 I8].
  unfold handle_user_join. constructor; simpl.
  - now apply obj_set_nodup.
  - intros k u H. apply obj_set_In in H as [H|H].
    + injection H as -> ->. simpl. auto using general_public.
    + eauto.
  - intros k H. rewrite connected_join.
    apply obj_set_keys_In in H as [->|H]; auto.
  - intros k H. apply obj_set_keys_In. right. auto.
  - assumption.
  - now rewrite socket_join_ids.
  - intros i rs r H Hr. apply socket_join_In in H as [rs0 [H [->|[-> ->]]]].
    + eauto.
    + apply in_app_iff in Hr as [Hr|[<-|[]]]; eauto using general_public.
  - intros i rs H Hn. apply socket_join_In in H as [rs0 [H [->|[-> ->]]]].
    + eauto.
    + apply in_app_iff. left. eauto.
  - intros k H. rewrite connected_join. auto.
Qed.

Lemma Inv_join_room s sid newRoom :
  Inv s -> Inv (fst (handle_join_room sid newRoom s)).
Proof.
  intros I. unfold handle_join_room.
  destruct (obj_get (users s) sid) as [user|] eqn:Eu; [|assumption].
  destruct (includes rooms newRoom) eqn:Er; simpl; [|assumption].
  destruct (String.eqb (User.room user) newRoom); simpl; [assumption|].
  apply includes_In in Er.
  destruct I as [I1 I2 I3 I4 I4n I5 I6 I7 I8].
  pose proof (obj_get_Some_In _ _ _ Eu) as Hin.
  destruct (I2 _ _ Hin) as [Hid [Hon Hroom]].
  constructor; simpl.
  - now apply obj_set_nodup.
  - intros k u H. apply obj_set_In in H as [H|H].
    + injection H as -> ->. simpl. auto.
    + eauto.
  - intros k H. rewrite connected_join, connected_leave.
    apply obj_set_keys_In in H as [->|H]; auto.
    apply I3. eapply obj_get_In_keys; eauto.
  - intros k H. apply obj_set_keys_In. right. auto.
  - assumption.
  - now rewrite socket_join_ids, socket_leave_ids.
  - intros i rs r H Hr. apply socket_join_In in H as [rs0 [H Hrs]].
    apply socket_leave_In in H as [rs1 [H Hrs1]].
    assert (Hsub : forall x, In x rs0 -> In x rs1).
    { destruct Hrs1 as [->|[_ ->]]; [auto|].
      intros x Hx. apply filter_In in Hx. tauto. }
    destruct Hrs as [->|[-> ->]].
    + eauto.
    + apply in_app_iff in Hr as [Hr|[<-|[]]]; eauto.
  - intros i rs H Hn. apply socket_join_In in H as [rs0 [H Hrs]].
    apply socket_leave_In in H as [rs1 [H Hrs1]].
    assert (Hi : In i rs0).
    { destruct Hrs1 as [->|[_ ->]]; [eauto|].
      apply filter_In. split; [eauto|].
      destruct (String.eqb_spec i (User.room user)); [|reflexivity].
      subst i. contradiction. }
    destruct Hrs as [->|[-> ->]]; [assumption|].
    apply in_app_iff. now left.
  - intros k H. rewrite connected_join, connected_leave. auto.
Qed.

Lemma Inv_typing_start s sid : Inv s -> Inv (fst (handle_typing_start sid s)).
Proof.
  intros I. unfold handle_typing_start.
  destruct (obj_get (users s) sid) as [user|] eqn:Eu; [|assumption].
  destruct I as [I1 I2 I3 I4 I4n I5 I6 I7 I8].
  constructor; simpl; auto.
  - intros k H. apply obj_set_keys_In in H as [->|H]; auto.
    eapply obj_get_In_keys; eauto.
  - now apply obj_set_nodup.
Qed.

Lemma Inv_typing_stop s sid : Inv s -> Inv (fst (handle_typing_stop sid s)).
Proof.
  intros I. unfold handle_typing_stop.
  destruct (obj_get (users s) sid) as [user|] eqn:Eu; [|assumption].
  destruct I as [I1 I2 I3 I4 I4n I5 I6 I7 I8].
  constructor; simpl; auto.
  - intros k H. apply obj_delete_keys_In in H as [H _]. auto.
  - now apply obj_delete_nodup.
Qed.

Lemma Inv_frame s s' :
  users s' = users s -> typingUsers s' = typingUsers s ->
  sockets s' = sockets s -> closed s' = closed s ->
  Inv s -> Inv s'.
Proof.
  intros E1 E2 E3 E4 [I1 I2 I3 I4 I4n I5 I6 I7 I8].
  constructor; rewrite ?E1, ?E2, ?E3, ?E4; assumption.
Qed.

Lemma Inv_handle s sid now e :
  connected (sockets s) sid = true -> Inv s -> Inv (fst (handle sid now e s)).
Proof.
  intros Hc I. destruct e; simpl;
    try (eapply Inv_frame; [| | | |exact I]; reflexivity).
  - now apply Inv_user_join.
  - unfold handle_send_message.
    destruct (obj_get (users s) sid); [|assumption].
    eapply Inv_frame; [| | | |exact I]; reflexivity.
  - now apply Inv_join_room.
  - now apply Inv_typing_start.
  - now apply Inv_typing_stop.
  - unfold handle_private_message.
    destruct (obj_get (users s) sid); [|assumption].
    destruct (truthy_at (users s) toUserId); [|assumption].
    eapply Inv_frame; [| | | |exact I]; reflexivity.
Qed.

Lemma Inv_connect s sid :
  connected (sockets s) sid = false -> includes (closed s) sid = false ->
  Inv s -> Inv (set_sockets (sockets s ++ [(sid, [sid])]) s).
Proof.
  intros Hc Hcl [I1 I2 I3 I4 I4n I5 I6 I7 I8].
  apply connected_false in Hc. apply includes_false in Hcl.
  constructor; simpl; auto.
  - intros k H. apply connected_In. rewrite map_app, in_app_iff. left.
    apply connected_In. auto.
  - rewrite map_app. simpl. apply NoDup_app; auto.
    + repeat constructor. simpl. tauto.
    + intros x Hx [<-|[]]. contradiction.
  - intros i rs r H Hr. apply in_app_iff in H as [H|[H|[]]]; eauto.
    injection H as <- <-. destruct Hr as [<-|[]]. now left.
  - intros i rs H Hn. apply in_app_iff in H as [H|[H|[]]]; eauto.
    injection H as <- <-. now left.
  - intros k H. apply connected_false. rewrite map_app, in_app_iff.
    intros [Hk|[<-|[]]].
    + apply I8 in H. apply connected_false in H. contradiction.
    + contradiction.
Qed.

Lemma Inv_disconnect s sid :
  connected (sockets s) sid = true ->
  Inv s ->
  Inv (fst (handle_disconnect sid
              (set_closed (sid :: closed s)
                 (set_sockets (socket_remove sid (sockets s)) s)))).
Proof.
  intros Hc [I1 I2 I3 I4 I4n I5 I6 I7 I8].
  assert (Hrm : forall k, connected (sockets s) k = true -> k <> sid ->
                connected (socket_remove sid (sockets s)) k = true).
  { intros k H1 H2. apply connected_remove. auto. }
  assert (Hcl : forall k, In k (sid :: closed s) ->
                connected (socket_remove sid (sockets s)) k = false).
  { intros k Hk. destruct (connected (socket_remove sid (sockets s)) k) eqn:E;
      [|reflexivity].
    apply connected_remove in E as [E1 E2].
    destruct Hk as [<-|Hk]; [contradiction|].
    apply I8 in Hk. congruence. }
  unfold handle_disconnect; simpl.
  destruct (obj_get (users s) sid) as [user|] eqn:Eu; simpl.
  - constructor; simpl; auto.
    + apply obj_delete_nodup. now apply obj_set_nodup.
    + intros k u H. apply obj_delete_In in H as [H Hk]. simpl in Hk.
      apply obj_set_In in H as [H|H]; [congruence|eauto].
    + intros k H. apply obj_delete_keys_In in H as [H Hk].
      apply obj_set_keys_In in H as [->|H]; [contradiction|auto].
    + intros k H. apply obj_delete_keys_In in H as [H Hk].
      apply obj_delete_keys_In. split; [|assumption].
      apply obj_set_keys_In. right. auto.
    + now apply obj_delete_nodup.
    + rewrite socket_remove_ids. now apply NoDup_filter.
    + intros i rs r H. apply socket_remove_In in H as [H _]. eauto.
    + intros i rs H. apply socket_remove_In in H as [H _]. eauto.
  - constructor; simpl; auto.
    + intros k H. apply Hrm; auto. intros ->.
      apply obj_get_None_keys in Eu. contradiction.
    + rewrite socket_remove_ids. now apply NoDup_filter.
    + intros i rs r H. apply socket_remove_In in H as [H _]. eauto.
    + intros i rs H. apply socket_remove_In in H as [H _]. eauto.
Qed.

Lemma save_new_frame now m s saved s' :
  save_new now m s = Some (saved, s') -> same_registry s s'.
Proof.
  unfold save_new. destruct (Message.validate m); [|discriminate].
  intros H. injection H as <- <-. repeat split.
Qed.

Lemma findByIdAndUpdate_frame id f now s updated s' :
  findByIdAndUpdate id f now s = Some (updated, s') -> same_registry s s'.
Proof.
  unfold findByIdAndUpdate. destruct (findById id (db s)); [|discriminate].
  intros H. injection H as <- <-. repeat split.
Qed.

Lemma save_reactions_frame now m delta s saved s' :
  save_reactions now m delta s = Some (saved, s') -> same_registry s s'.
Proof.
  unfold save_reactions.
  destruct (findById (Message._id m) (db s)) as [stored|]; [|discriminate].
  destruct (version_matches delta m stored); [|discriminate].
  intros H. injection H as <- <-. repeat split.
Qed.

Lemma resume_frame t now s : same_registry s (fst (resume t now s)).
Proof.
  destruct t; simpl; try (repeat split; fail).
  - destruct (save_new now newMessage s) as [[saved s']|] eqn:E;
      [eapply save_new_frame; eauto|repeat split].
  - destruct (findByIdAndUpdate _ _ now s) as [[updated s']|] eqn:E;
      [eapply findByIdAndUpdate_frame; eauto|repeat split].
  - destruct (findById id (db s)); repeat split.
  - destruct (findById messageId (db s)); repeat split.
  - destruct (save_reactions now message delta s) as [[saved s']|] eqn:E;
      [eapply save_reactions_frame; eauto|repeat split].
  - destruct (findByIdAndUpdate _ _ now s) as [[updated s']|] eqn:E;
      [eapply findByIdAndUpdate_frame; eauto|repeat split].
  - destruct (save_new now newMessage s) as [[saved s']|] eqn:E;
      [eapply save_new_frame; eauto|repeat split].
Qed.

Lemma Inv_exit s : Inv (exit s).
Proof. constructor; simpl; try constructor; try tauto. Qed.

Lemma step_Inv s i : Inv s -> Inv (fst (step s i)).
Proof.
  intros I. destruct i as [sid|sid now e|sid|k ok now]; simpl.
  - destruct (connected (sockets s) sid) eqn:Ec; simpl; [assumption|].
    destruct (includes (closed s) sid) eqn:Ecl; simpl; [assumption|].
    now apply Inv_connect.
  - destruct (connected (sockets s) sid) eqn:Ec; [|assumption].
    now apply Inv_handle.
  - destruct (connected (sockets s) sid) eqn:Ec; [|assumption].
    now apply Inv_disconnect.
  - destruct (nth_error (pending s) k) as [t|]; [|assumption].
    destruct ok.
    + destruct (resume_frame t now (set_pending (remove_nth k (pending s)) s))
        as (E1 & E2 & E3 & E4).
      eapply Inv_frame; [exact E1|exact E2|exact E3|exact E4|].
      eapply Inv_frame; [| | | |exact I]; reflexivity.
    + unfold reject. destruct (caught t || _).
      * eapply Inv_frame; [| | | |exact I]; reflexivity.
      * apply Inv_exit.
Qed.

Lemma Inv_init : Inv init.
Proof. constructor; simpl; try constructor; try tauto. Qed.

Lemma reachable_Inv s : reachable s -> Inv s.
Proof.
  induction 1; [apply Inv_init|apply (Inv_exit init_sentry)|now apply step_Inv].
Qed.

(** ** Who receives what *)

Lemma In_io_emit ss ev t e :
  In (t, e) (io_emit ss ev) <-> e = ev /\ connected ss t = true.
Proof.
  unfold io_emit. rewrite in_map_iff, connected_In, in_map_iff. split.
  - intros [x [H Hin]]. injection H as <- <-. split; [reflexivity|]. eauto.
  - intros [-> [x [<- Hin]]]. eauto.
Qed.

Lemma In_io_to ss r ev t e :
  In (t, e) (io_to ss r ev)
  <-> e = ev /\ exists rs, In (t, rs) ss /\ includes rs r = true.
Proof.
  unfold io_to. rewrite in_map_iff. split.
  - intros [[i rs] [H Hin]]. injection H as <- <-.
    apply filter_In in Hin as [Hin Hr]. eauto.
  - intros [-> [rs [Hin Hr]]]. exists (t, rs). split; [reflexivity|].
    apply filter_In. auto.
Qed.

Lemma In_socket_emit ss sid ev t e :
  In (t, e) (socket_emit ss sid ev)
  <-> e = ev /\ t = sid /\ connected ss sid = true.
Proof.
  unfold socket_emit. destruct (connected ss sid); simpl; split.
  - intros [H|[]]. injection H as <- <-. auto.
  - intros (-> & -> & _). now left.
  - intros [].
  - intros (_ & _ & H). discriminate.
Qed.

Lemma In_socket_broadcast_to ss sid r ev t e :
  In (t, e) (socket_broadcast_to ss sid r ev)
  <-> e = ev /\ t <> sid /\ exists rs, In (t, rs) ss /\ includes rs r = true.
Proof.
  unfold socket_broadcast_to. rewrite in_map_iff. split.
  - intros [[i rs] [H Hin]]. injection H as <- <-.
    apply filter_In in Hin as [Hin Hr]. simpl in Hr.
    apply andb_true_iff in Hr as [Hr Hne]. unfold in_room in Hr. simpl in Hr.
    destruct (String.eqb_spec i sid); [discriminate|]. eauto.
  - intros (-> & Hne & rs & Hin & Hr). exists (t, rs). split; [reflexivity|].
    apply filter_In. split; [assumption|]. simpl. unfold in_room. simpl.
    rewrite Hr. destruct (String.eqb_spec t sid); [contradiction|reflexivity].
Qed.

(** an emitted packet is taken apart down to the call that sent it *)
Ltac emit_inv H :=
  repeat match type of H with
         | In _ (_ ++ _) => apply in_app_iff in H as [H|H]
         end;
  first
    [ apply In_io_emit in H as [H ?]
    | apply In_io_to in H as [H ?]
    | apply In_socket_emit in H as [H ?]
    | apply In_socket_broadcast_to in H as [H ?]
    | destruct H ].

Lemma all_online_values (o : obj User.t) :
  (forall k u, In (k, u) o -> User.online u = true) ->
  filter User.online (obj_values o) = obj_values o.
Proof.
  induction o as [|[k u] o IH]; simpl; intros H; [reflexivity|].
  rewrite (H k u (or_introl eq_refl)). f_equal. apply IH.
  intros k' u' Hin. apply (H k' u'). now right.
Qed.

Lemma obj_delete_absent {V : Type} (o : obj V) k :
  ~ In k (obj_keys o) -> obj_delete o k = o.
Proof.
  induction o as [|[k0 v0] o IH]; simpl; intros H; [reflexivity|].
  destruct (String.eqb_spec k0 k); simpl.
  - exfalso. apply H. now left.
  - f_equal. apply IH. tauto.
Qed.

(** marking one user offline and filtering on [online] leaves what the
    registry holds once that user is deleted *)
Lemma roster_after_offline (o : obj User.t) A user :
  NoDup (obj_keys o) ->
  (forall k u, In (k, u) o -> User.online u = true) ->
  user_list_online (obj_set o A (User.set_online false user))
  = user_list_all (obj_delete (obj_set o A (User.set_online false user)) A).
Proof.
  unfold user_list_online, user_list_all. intros ND Hon. f_equal.
  induction o as [|[k u] o IH]; simpl.
  - now rewrite String.eqb_refl.
  - inversion ND as [|? ? Hnin ND']; subst.
    destruct (String.eqb_spec k A); simpl.
    + subst k. rewrite String.eqb_refl. simpl.
      rewrite all_online_values by (intros; eapply Hon; right; eauto).
      fold (obj_delete o A). now rewrite obj_delete_absent.
    + destruct (String.eqb_spec k A); [contradiction|]. simpl.
      rewrite (Hon k u (or_introl eq_refl)). f_equal.
      apply IH; [assumption|]. intros; eapply Hon; right; eauto.
Qed.

(** a [user_list] that is sent goes to every connected socket and
    carries the registry as the handler leaves it *)
Lemma user_list_from_registry s i to l :
  Inv s -> In (to, user_list l) (snd (step s i)) ->
  l = user_list_all (users (fst (step s i)))
  /\ (forall t, connected (sockets (fst (step s i))) t = true ->
        In (t, user_list l) (snd (step s i))).
Proof.
  intros I H. destruct i as [sid|sid now e|sid|k ok now]; simpl in *.
  - destruct (connected (sockets s) sid || includes (closed s) sid);
      destruct H.
  - destruct (connected (sockets s) sid); [|destruct H].
    destruct e; simpl in H; try (destruct H; fail).
    + emit_inv H; discriminate.
    + unfold handle_send_message in H.
      destruct (obj_get (users s) sid); destruct H.
    + unfold handle_join_room in H.
      destruct (obj_get (users s) sid); [|destruct H].
      destruct (negb (includes rooms newRoom) || _); [destruct H|].
      simpl in H. emit_inv H; discriminate.
    + unfold handle_typing_start in H.
      destruct (obj_get (users s) sid); [|destruct H].
      simpl in H. emit_inv H; discriminate.
    + unfold handle_typing_stop in H.
      destruct (obj_get (users s) sid); [|destruct H].
      simpl in H. emit_inv H; discriminate.
    + unfold handle_private_message in H.
      destruct (obj_get (users s) sid); [|destruct H].
      destruct (truthy_at (users s) toUserId); destruct H.
  - destruct (connected (sockets s) sid) eqn:Ec; [|destruct H].
    unfold handle_disconnect in *. simpl in *.
    destruct (obj_get (users s) sid) as [user|] eqn:Eu; [|destruct H].
    simpl in *. emit_inv H; [discriminate|].
    injection H as ->. split.
    + apply roster_after_offline; [apply I|].
      intros k u Hin. now apply (inv_entries s I k u).
    + intros t Ht. apply in_app_iff. right. apply In_io_emit. auto.
  - destruct (nth_error (pending s) k) as [t|]; [|destruct H].
    destruct ok; [|destruct H].
    destruct t; simpl in *;
      repeat match type of H with
             | In _ (snd (match ?x with _ => _ end)) =>
                 destruct x as [[? ?]|]; simpl in H
             end;
      try (destruct H; fail); try (emit_inv H; discriminate).
    + emit_inv H; try discriminate. injection H as ->. split; [reflexivity|].
      intros t Ht. apply in_app_iff. right. apply in_app_iff. left.
      apply In_io_emit. auto.
    + emit_inv H; try discriminate. injection H as ->. split; [reflexivity|].
      intros t Ht. apply in_app_iff. right. apply in_app_iff. right.
      apply In_io_emit. auto.
Qed.

Lemma user_list_all_In (us : obj User.t) e :
  In e (user_list_all us) -> exists k u, In (k, u) us /\ e = roster_entry u.
Proof.
  unfold user_list_all, obj_values. intros He.
  apply in_map_iff in He as [u [<- Hu]].
  apply in_map_iff in Hu as [[k u'] [Hs Hu]]. simpl in Hs. subst u'.
  eauto.
Qed.

Lemma run_app s l1 l2 :
  run s (l1 ++ l2)
  = (fst (run (fst (run s l1)) l2),
     snd (run s l1) ++ snd (run (fst (run s l1)) l2)).
Proof.
  revert s. induction l1 as [|i l1 IH]; intros s; simpl.
  - now destruct (run s l2).
  - destruct (step s i) as [s1 o1]. rewrite IH.
    destruct (run s1 l1) as [s2 o2]. simpl.
    now rewrite app_assoc.
Qed.

Lemma run_Inv inputs : forall s, Inv s -> Inv (fst (run s inputs)).
Proof.
  induction inputs as [|i rest IH]; intros s I; simpl; [assumption|].
  pose proof (step_Inv s i I) as I1.
  destruct (step s i) as [s1 o1]. specialize (IH s1 I1).
  now destruct (run s1 rest).
Qed.

Lemma run_reachable inputs : forall s, reachable s -> reachable (fst (run s inputs)).
Proof.
  induction inputs as [|i rest IH]; intros s R; simpl; [assumption|].
  pose proof (reachable_step s i R) as R1.
  destruct (step s i) as [s1 o1]. specialize (IH s1 R1).
  now destruct (run s1 rest).
Qed.

Lemma step_closed_mono s i k : In k (closed s) -> In k (closed (fst (step s i))).
Proof.
  intros H. destruct i as [sid|sid now e|sid|j ok now]; simpl.
  - destruct (connected (sockets s) sid || includes (closed s) sid); assumption.
  - destruct (connected (sockets s) sid); [|assumption].
    destruct e; simpl; try assumption.
    + unfold handle_send_message. now destruct (obj_get (users s) sid).
    + unfold handle_join_room. destruct (obj_get (users s) sid); [|assumption].
      now destruct (negb (includes rooms newRoom) || _).
    + unfold handle_typing_start. now destruct (obj_get (users s) sid).
    + unfold handle_typing_stop. now destruct (obj_get (users s) sid).
    + unfold handle_private_message.
      destruct (obj_get (users s) sid); [|assumption].
      now destruct (truthy_at (users s) toUserId).
  - destruct (connected (sockets s) sid); [|assumption].
    unfold handle_disconnect. simpl.
    destruct (obj_get (users s) sid); simpl; now right.
  - destruct (nth_error (pending s) j) as [t|]; [|assumption].
    destruct ok.
    + destruct (resume_frame t now (set_pending (remove_nth j (pending s)) s))
        as (_ & _ & _ & E). now rewrite E.
    + unfold reject. destruct (caught t || _); [assumption|].
      simpl. apply in_app_iff. now right.
Qed.

(** a closed connection is in neither map *)
Lemma closed_unregistered s k :
  Inv s -> In k (closed s) ->
  ~ In k (obj_keys (users s)) /\ ~ In k (obj_keys (typingUsers s)).
Proof.
  intros I H. assert (Hu : ~ In k (obj_keys (users s))).
  { intros Hk. apply (inv_registered s I) in Hk.
    apply (inv_closed s I) in H. congruence. }
  split; [assumption|]. intros Hk. apply Hu. now apply (inv_typing s I).
Qed.

Lemma run_closed A inputs : forall s,
  Inv s -> In A (closed s) ->
  (forall to l, In (to, user_list l) (snd (run s inputs)) ->
     forall e, In e l -> RosterEntry.id e <> A)
  /\ In A (closed (fst (run s inputs))).
Proof.
  induction inputs as [|i rest IH]; intros s I HA; simpl.
  - split; [intros ? ? []|assumption].
  - pose proof (step_Inv s i I) as I1.
    pose proof (step_closed_mono s i A HA) as HA1.
    pose proof (user_list_from_registry s i) as HU.
    destruct (step s i) as [s1 o1]. simpl in *.
    destruct (IH s1 I1 HA1) as [IH1 IH2].
    destruct (run s1 rest) as [s2 o2]. simpl in *. split; [|assumption].
    intros to l Hin e He. apply in_app_iff in Hin as [Hin|Hin]; [|eauto].
    destruct (HU to l I Hin) as [-> _].
    apply user_list_all_In in He as (k & u & Hku & ->).
    destruct (inv_entries s1 I1 k u Hku) as [Hid _].
    simpl. rewrite Hid. intros ->.
    destruct (closed_unregistered s1 A I1 HA1) as [Hn _]. apply Hn.
    unfold obj_keys. now apply (in_map fst) in Hku.
Qed.

(** ** The roster and the cleanup after a disconnect *)

Lemma reachable_run inputs : reachable (fst (run init inputs)).
Proof. apply run_reachable, reachable_init. Qed.

(** C7. Whatever makes the server send a [user_list] (the rest of a
    [user_join], the rest of a [join_room], a [disconnect]), the payload
    holds online users only: it is the projection to id, username, room
    and online of the registry as the handler leaves it, in which every
    entry is online, and every connected socket receives it. *)
Theorem C7_user_list_only_online s i to l :
  reachable s ->
  In (to, user_list l) (snd (step s i)) ->
  Forall (fun e => RosterEntry.online e = true) l
  /\ l = map roster_entry (obj_values (users (fst (step s i))))
  /\ (forall t, connected (sockets (fst (step s i))) t = true ->
        In (t, user_list l) (snd (step s i))).
Proof.
  intros R H. pose proof (reachable_Inv s R) as I.
  destruct (user_list_from_registry s i to l I H) as [El Hall].
  split; [|split; assumption].
  apply Forall_forall. intros e He. rewrite El in He.
  apply user_list_all_In in He as (k & u & Hku & ->).
  now apply (inv_entries _ (step_Inv s i I) k u).
Qed.

Lemma C7_witness :
  let l := [RosterEntry.mk "A" "alice" "general" true;
            RosterEntry.mk "B" "bob" "general" true] in
  let r := step two_joined (Settle 0 true 4) in
  Forall (fun e => RosterEntry.online e = true) l
  /\ l = map roster_entry (obj_values (users (fst r)))
  /\ (forall t, connected (sockets (fst r)) t = true ->
        In (t, user_list l) (snd r)).
Proof.
  apply (C7_user_list_only_online two_joined (Settle 0 true 4) "A").
  - apply reachable_run.
  - vm_compute. tauto.
Defined.

(** C9. Once a connected socket A has disconnected, no [user_list] sent
    by the disconnect handler or by anything that runs later has an entry
    with the id A, and A is a key of neither [typingUsers] nor [users], so
    that no typing list is computed from an entry of A. *)
Theorem C9_disconnect_cleanup s A later :
  reachable s ->
  connected (sockets s) A = true ->
  let s1 := step s (Disconnect A) in
  let r := run (fst s1) later in
  (forall to l, In (to, user_list l) (snd s1 ++ snd r) ->
     forall e, In e l -> RosterEntry.id e <> A)
  /\ ~ In A (obj_keys (typingUsers (fst r)))
  /\ ~ In A (obj_keys (users (fst r))).
Proof.
  intros R Hc s1 r. pose proof (reachable_Inv s R) as I.
  pose proof (step_Inv s (Disconnect A) I) as I1. fold s1 in I1.
  assert (HA : In A (closed (fst s1))).
  { unfold s1. simpl. rewrite Hc. unfold handle_disconnect. simpl.
    destruct (obj_get (users s) A); simpl; now left. }
  destruct (run_closed A later (fst s1) I1 HA) as [H1 H2]. fold r in H1, H2.
  pose proof (run_Inv later (fst s1) I1) as I2. fold r in I2.
  destruct (closed_unregistered (fst r) A I2 H2) as [Hu Ht].
  split; [|split; assumption].
  intros to l Hin e He. apply in_app_iff in Hin as [Hin|Hin]; [|eauto].
  destruct (user_list_from_registry s (Disconnect A) to l I Hin) as [-> _].
  apply user_list_all_In in He as (k & u & Hku & ->).
  destruct (inv_entries _ I1 k u Hku) as [Hid _]. simpl. rewrite Hid.
  intros ->. destruct (closed_unregistered (fst s1) A I1 HA) as [Hn _].
  apply Hn. unfold obj_keys. now apply (in_map fst) in Hku.
Qed.

Lemma C9_witness :
  let s1 := step two_typing (Disconnect "A") in
  let r := run (fst s1) [Receive "B" 7 (join_room "tech"); Settle 0 true 8;
                         Connect "A"; Receive "A" 9 (user_join "alice")] in
  (forall to l, In (to, user_list l) (snd s1 ++ snd r) ->
     forall e, In e l -> RosterEntry.id e <> "A")
  /\ ~ In "A" (obj_keys (typingUsers (fst r)))
  /\ ~ In "A" (obj_keys (users (fst r))).
Proof.
  apply (C9_disconnect_cleanup two_typing "A").
  - apply reachable_run.
  - reflexivity.
Defined.

(** ** Room switch: the guard *)

(** C6. [join_room] does nothing at all, no change of state and no
    packet, when the socket is not registered, when the room is not one of
    the public rooms, or when the user is already in that room. *)
Theorem C6_join_room_noop s sid now newRoom :
  obj_get (users s) sid = None
  \/ ~ In newRoom rooms
  \/ (exists u, obj_get (users s) sid = Some u /\ User.room u = newRoom) ->
  step s (Receive sid now (join_room newRoom)) = (s, []).
Proof.
  intros H. simpl. destruct (connected (sockets s) sid); [|reflexivity].
  simpl. unfold handle_join_room.
  destruct (obj_get (users s) sid) as [user|]; [|reflexivity].
  destruct H as [H|[H|[u [H <-]]]].
  - discriminate.
  - apply includes_false in H. now rewrite H.
  - injection H as <-. rewrite String.eqb_refl. now rewrite orb_true_r.
Qed.

Lemma C6_witness :
  step two_joined (Receive "A" 5 (join_room "lobby"))
  = (two_joined, []).
Proof.
  apply (C6_join_room_noop two_joined "A" 5 "lobby").
  right. left. vm_compute. intuition discriminate.
Defined.

(** ** A second join *)

(** C5, as the spec has it, fails: a [user_join] on a registered id is
    not turned away, the entry of that id is replaced. *)
Lemma C5_counterexample :
  ~ (forall s sid now username,
       reachable s -> In sid (obj_keys (users s)) ->
       users (fst (step s (Receive sid now (user_join username))))
       = users s).
Proof.
  intros H.
  specialize (H two_joined "A" 5 "mallory" (reachable_run _)).
  vm_compute in H. specialize (H (or_introl eq_refl)). discriminate.
Qed.

(** C5, amended. A [user_join] on an id that is already registered does
    not fail: the handler has no such check.  It overwrites the entry of
    that id in place, with the new username, the room general, online and
    the new join time, leaves every other entry and the set of keys as
    they are, sends the room list to the socket and goes on to the history
    query like a first join. *)
Theorem C5_user_join_overwrites s sid now username u :
  reachable s ->
  obj_get (users s) sid = Some u ->
  let s' := fst (step s (Receive sid now (user_join username))) in
  obj_get (users s') sid = Some (User.mk sid username "general" true now)
  /\ obj_keys (users s') = obj_keys (users s)
  /\ (forall k, k <> sid -> obj_get (users s') k = obj_get (users s) k)
  /\ snd (step s (Receive sid now (user_join username)))
     = [(sid, available_rooms rooms)]
  /\ pending s' = pending s ++ [AwaitUserJoinHistory sid username].
Proof.
  intros R Hu. pose proof (reachable_Inv s R) as I.
  assert (Hc : connected (sockets s) sid = true).
  { apply (inv_registered s I). eapply obj_get_In_keys; eauto. }
  simpl. rewrite Hc. simpl. repeat split.
  - apply obj_get_set_eq.
  - eapply obj_set_keys_present; eauto.
  - intros k Hk. now apply obj_get_set_neq.
  - unfold socket_emit. now rewrite connected_join, Hc.
Qed.

Lemma C5_witness :
  obj_get (users (fst (step two_joined (Receive "A" 5 (user_join "mallory")))))
          "A"
  = Some (User.mk "A" "mallory" "general" true 5).
Proof.
  apply (C5_user_join_overwrites two_joined "A" 5 "mallory"
           (User.mk "A" "alice" "general" true 1)).
  - apply reachable_run.
  - reflexivity.
Defined.

(** ** Typing *)

(** C4, as the spec has it, fails: after a [typing_stop] the list does
    not reach everyone in the room, the socket that stopped is in the room
    and gets nothing. *)
Lemma C4_counterexample :
  ~ (forall s sid now u t,
       reachable s -> obj_get (users s) sid = Some u ->
       In t (room_members (sockets s) (User.room u)) ->
       exists l, In (t, typing_users l)
                    (snd (step s (Receive sid now typing_stop)))).
Proof.
  intros H.
  destruct (H two_typing "A" 7 (User.mk "A" "alice" "general" true 1) "A"
              (reachable_run _) eq_refl) as [l Hl].
  - vm_compute. tauto.
  - vm_compute in Hl. destruct Hl as [Hl|[]]. discriminate.
Qed.

Lemma typing_names_entries (tu : obj string) (p : string -> bool) :
  NoDup (obj_keys tu) ->
  typing_names tu (filter p (obj_keys tu))
  = map snd (filter (fun kv => p (fst kv)) tu).
Proof.
  intros ND.
  assert (G : forall l, (forall kv, In kv l -> obj_get tu (fst kv) = Some (snd kv)) ->
            typing_names tu (filter p (map fst l))
            = map snd (filter (fun kv => p (fst kv)) l)).
  { induction l as [|[k v] l IH]; simpl; intros Hl; [reflexivity|].
    destruct (p k); simpl.
    - pose proof (Hl (k, v) (or_introl eq_refl)) as E. simpl in E.
      unfold typing_names in *. simpl. rewrite E. f_equal.
      apply IH. intros; apply Hl; now right.
    - apply IH. intros; apply Hl; now right. }
  apply G. clear G. induction tu as [|[k v] tu IH]; simpl; [tauto|].
  inversion ND as [|? ? Hnin ND']; subst.
  intros kv [<-|Hin]; simpl.
  - now rewrite String.eqb_refl.
  - destruct (String.eqb_spec k (fst kv)).
    + exfalso. apply Hnin. subst k. unfold obj_keys. now apply in_map.
    + now apply IH.
Qed.

Lemma socket_broadcast_to_others ss sid r ev :
  socket_broadcast_to ss sid r ev
  = map (fun t => (t, ev))
        (filter (fun t => negb (String.eqb t sid)) (room_members ss r)).
Proof.
  unfold socket_broadcast_to, room_members.
  induction ss as [|[i rs] ss IH]; simpl; [reflexivity|].
  destruct (in_room r (i, rs)); simpl; [|apply IH].
  destruct (String.eqb i sid); simpl; [apply IH|]. f_equal. apply IH.
Qed.

(** C4, amended. Both typing handlers send with [socket.broadcast]: the
    list goes to every socket of the room of the user but the one that
    acts.  [typing_stop] removes the entry of the socket from
    [typingUsers] and sends the names of the entries that are left and
    whose user is in the room; [typing_start] writes the entry and sends
    the names of the entries whose user is in the room, the one of the
    socket left out. *)
Theorem C4_typing_broadcasts s sid now u :
  reachable s ->
  obj_get (users s) sid = Some u ->
  let R := User.room u in
  let others := filter (fun t => negb (String.eqb t sid))
                       (room_members (sockets s) R) in
  (let tu := obj_delete (typingUsers s) sid in
   let roomTyping :=
     map snd (filter (fun kv => user_in_room (users s) R (fst kv)) tu) in
   step s (Receive sid now typing_stop)
   = (set_typingUsers tu s, map (fun t => (t, typing_users roomTyping)) others)
   /\ obj_get tu sid = None)
  /\
  (let tu := obj_set (typingUsers s) sid (User.username u) in
   let roomTyping :=
     map snd (filter (fun kv => user_in_room (users s) R (fst kv)
                                && negb (String.eqb (fst kv) sid)) tu) in
   step s (Receive sid now typing_start)
   = (set_typingUsers tu s, map (fun t => (t, typing_users roomTyping)) others)
   /\ obj_get tu sid = Some (User.username u)).
Proof.
  intros Rs Hu R others. pose proof (reachable_Inv s Rs) as I.
  assert (Hc : connected (sockets s) sid = true).
  { apply (inv_registered s I). eapply obj_get_In_keys; eauto. }
  assert (Hb : forall ev,
             socket_broadcast_to (sockets s) sid R ev
             = map (fun t => (t, ev)) others).
  { intros ev. apply socket_broadcast_to_others. }
  split; simpl; rewrite Hc; simpl.
  - unfold handle_typing_stop. rewrite Hu. fold R. rewrite Hb. split.
    + rewrite typing_names_entries
        by (apply obj_delete_nodup, (inv_typing_keys s I)).
      reflexivity.
    + apply obj_get_delete_eq.
  - unfold handle_typing_start. rewrite Hu. fold R. rewrite Hb. split.
    + rewrite (typing_names_entries _
                 (fun id => user_in_room (users s) R id
                            && negb (String.eqb id sid)))
        by (apply obj_set_nodup, (inv_typing_keys s I)).
      reflexivity.
    + apply obj_get_set_eq.
Qed.

Lemma C4_witness :
  step two_typing (Receive "A" 7 typing_stop)
  = (set_typingUsers [("B", "bob")] two_typing,
     [("B", typing_users ["bob"])]).
Proof.
  apply (C4_typing_broadcasts two_typing "A" 7
           (User.mk "A" "alice" "general" true 1)).
  - apply reachable_run.
  - reflexivity.
Defined.

(** ** Reactions *)


Lemma upsert_reaction_nil uid e :
  upsert_reaction uid e [] = [Reaction.mk uid e].
Proof. reflexivity. Qed.







(** the change Mongoose sends takes the array of the fetched document to
    the array of the handler *)
Lemma apply_delta_reactions now sid emoji x :
  Message.reactions
    (apply_delta now (reaction_delta sid emoji (Message.reactions x)) x)
  = upsert_reaction sid emoji (Message.reactions x).
Proof.
  unfold reaction_delta, upsert_reaction.
  now destruct (findIndex _ (Message.reactions x) >? -1).
Qed.

Lemma apply_delta_same_but_reactions now delta x :
  same_but_reactions x (apply_delta now delta x).
Proof. destruct delta; repeat split. Qed.

Lemma apply_delta_id now delta x :
  Message._id (apply_delta now delta x) = Message._id x.
Proof. now destruct delta. Qed.

Lemma apply_delta_updatedAt now delta x :
  Message.updatedAt (apply_delta now delta x) = now.
Proof. now destruct delta. Qed.

(** *** What the store holds after a save *)

Lemma nth_error_app_last {A : Type} (l : list A) x :
  nth_error (l ++ [x]) (List.length l) = Some x.
Proof. induction l; simpl; auto. Qed.

Lemma remove_nth_app_last {A : Type} (l : list A) x :
  remove_nth (List.length l) (l ++ [x]) = l.
Proof. induction l; simpl; [reflexivity|]. now f_equal. Qed.

Lemma findById_id id db m : findById id db = Some m -> Message._id m = id.
Proof.
  unfold findById. intros H. apply find_some in H as [_ H].
  now apply N.eqb_eq in H.
Qed.

Lemma findById_update id write db m :
  (forall x, Message._id (write x) = Message._id x) ->
  findById id db = Some m ->
  findById id (update_doc id write db) = Some (write m).
Proof.
  unfold findById, update_doc. intros Hw H.
  induction db as [|x db IH]; simpl in *; [discriminate|].
  destruct (N.eqb (Message._id x) id) eqn:Ex; simpl.
  - rewrite Hw, Ex. now injection H as ->.
  - rewrite Ex. auto.
Qed.

Lemma findById_update_other id id' write db :
  (forall x, Message._id (write x) = Message._id x) ->
  id' <> id ->
  findById id' (update_doc id write db) = findById id' db.
Proof.
  unfold findById, update_doc. intros Hw Hne.
  induction db as [|x db IH]; simpl; [reflexivity|].
  destruct (N.eqb_spec (Message._id x) id) as [Ex|Ex].
  - rewrite Hw. destruct (N.eqb_spec (Message._id x) id'); [congruence|].
    exact IH.
  - destruct (N.eqb_spec (Message._id x) id'); [reflexivity|exact IH].
Qed.

Lemma step_suspend_settle s t now :
  step (suspend t s) (Settle (List.length (pending s)) true now)
  = resume t now s.
Proof.
  unfold step, suspend. simpl.
  rewrite nth_error_app_last, remove_nth_app_last.
  now destruct s.
Qed.

(** an [add_reaction] whose lookup and save are settled at once: the
    store applies the change of the handler to the document it fetched *)
Lemma add_reaction_run s sid now1 now2 now3 messageId emoji m :
  connected (sockets s) sid = true ->
  findById messageId (db s) = Some m ->
  fst (run s [Receive sid now1 (add_reaction messageId emoji);
              Settle (List.length (pending s)) true now2;
              Settle (List.length (pending s)) true now3])
  = set_db (update_doc messageId
              (apply_delta now3
                 (reaction_delta sid emoji (Message.reactions m)))
              (db s)) s.
Proof.
  intros Hc Hm. pose proof (findById_id _ _ _ Hm) as Hid.
  cbn [run].
  replace (step s (Receive sid now1 (add_reaction messageId emoji)))
    with (suspend (AwaitReactionFind sid messageId emoji) s, @nil Emit)
    by (simpl; now rewrite Hc).
  rewrite step_suspend_settle. cbn [resume]. rewrite Hm.
  rewrite step_suspend_settle. cbn [resume]. unfold save_reactions.
  cbn [Message._id Message.set_reactions]. rewrite Hid, Hm.
  replace (version_matches _ _ m) with true
    by (destruct (reaction_delta _ _ _); simpl; [now rewrite N.eqb_refl|reflexivity]).
  reflexivity.
Qed.

(** C10. When [add_reaction] finds the message and the store takes the
    save, the document the store then holds differs from the one that was
    fetched in [reactions], which is the upsert of the fetched array, and
    in [updatedAt] only: id, sender, senderId, message, room, isPrivate,
    recipientId, delivered, read, edited, image and createdAt are those of
    the fetched document, and no other document of the store changes. *)
Theorem C10_add_reaction_frame s sid now1 now2 now3 messageId emoji m :
  connected (sockets s) sid = true ->
  findById messageId (db s) = Some m ->
  let k := List.length (pending s) in
  let s3 := fst (run s [Receive sid now1 (add_reaction messageId emoji);
                        Settle k true now2; Settle k true now3]) in
  exists saved,
    findById messageId (db s3) = Some saved
    /\ same_but_reactions m saved
    /\ Message.reactions saved
       = upsert_reaction sid emoji (Message.reactions m)
    /\ Message.updatedAt saved = now3
    /\ (forall id, id <> messageId -> findById id (db s3) = findById id (db s)).
Proof.
  intros Hc Hm k s3.
  set (write := apply_delta now3
                  (reaction_delta sid emoji (Message.reactions m))).
  exists (write m).
  assert (E : s3 = set_db (update_doc messageId write (db s)) s)
    by now apply add_reaction_run.
  rewrite E. cbn [db set_db].
  assert (Hw : forall x, Message._id (write x) = Message._id x)
    by (intros x; apply apply_delta_id).
  split; [now apply (findById_update messageId write (db s) m)|].
  split; [apply apply_delta_same_but_reactions|].
  split; [apply apply_delta_reactions|].
  split; [apply apply_delta_updatedAt|].
  intros id Hne. now apply findById_update_other.
Qed.

Lemma C10_witness :
  exists saved,
    findById 1%N (db (fst (run one_message
                           [Receive "B" 7 (add_reaction 1%N "+1");
                            Settle 1 true 8; Settle 1 true 9])))
    = Some saved
    /\ Message.message saved = "hi"
    /\ Message.reactions saved = [Reaction.mk "B" "+1"].
Proof.
  destruct (C10_add_reaction_frame one_message "B" 7 8 9 1%N "+1"
              (Message.mk 1%N "alice" "A" "hi" "general" false None true false
                          [] false None 6 6 0%N) eq_refl eq_refl)
    as (saved & H1 & H2 & H3 & _).
  exists saved. split; [exact H1|]. split; [apply H2|exact H3].
Defined.

(** ** Private messages *)

Lemma io_to_members ss r ev :
  io_to ss r ev = map (fun t => (t, ev)) (room_members ss r).
Proof. unfold io_to, room_members. now rewrite map_map. Qed.

Lemma room_members_none ss r :
  (forall i rs, In (i, rs) ss -> in_room r (i, rs) = false) ->
  room_members ss r = [].
Proof.
  unfold room_members. induction ss as [|[i rs] ss IH]; simpl; intros H;
    [reflexivity|].
  rewrite (H i rs (or_introl eq_refl)). apply IH.
  intros; apply H; now right.
Qed.

(** the room named by the id of a connected socket holds that socket and
    no other, unless the id is the name of a public room *)
Lemma room_members_own s sid :
  Inv s -> connected (sockets s) sid = true -> ~ In sid rooms ->
  room_members (sockets s) sid = [sid].
Proof.
  intros I Hc Hn. apply connected_In in Hc.
  pose proof (inv_sockets s I) as ND.
  assert (H1 : forall i rs, In (i, rs) (sockets s) ->
               in_room sid (i, rs) = true -> i = sid).
  { intros i rs Hin Hr. apply includes_In in Hr. simpl in Hr.
    destruct (inv_rooms s I i rs sid Hin Hr); [congruence|contradiction]. }
  assert (H2 : forall rs, In (sid, rs) (sockets s) ->
               in_room sid (sid, rs) = true).
  { intros rs Hin. apply includes_In. simpl. now apply (inv_own s I). }
  revert ND H1 H2 Hc. generalize (sockets s) as ss.
  induction ss as [|[i rs] ss IH]; simpl; intros ND H1 H2 Hc; [destruct Hc|].
  inversion ND as [|? ? Hnin ND']; subst.
  unfold room_members. simpl.
  destruct (in_room sid (i, rs)) eqn:Er.
  - assert (i = sid) by (eapply H1; eauto). subst i. simpl. f_equal.
    apply room_members_none. intros j rs' Hin.
    destruct (in_room sid (j, rs')) eqn:Ej; [|reflexivity].
    exfalso. apply Hnin. assert (j = sid) by (eapply H1; eauto). subst j.
    now apply (in_map fst) in Hin.
  - destruct Hc as [Hc|Hc].
    + subst i. rewrite H2 in Er by now left. discriminate.
    + apply IH; [assumption| |intros; apply H2; now right|assumption].
      intros j rs' Hin. apply H1. now right.
Qed.

Lemma room_members_only s r t :
  Inv s -> ~ In r rooms -> In t (room_members (sockets s) r) -> t = r.
Proof.
  intros I Hn Hin. unfold room_members in Hin.
  apply in_map_iff in Hin as [[i rs] [<- Hin]].
  apply filter_In in Hin as [Hin Hr]. apply includes_In in Hr. simpl in *.
  destruct (inv_rooms s I i rs r Hin Hr); [congruence|contradiction].
Qed.

(** C8. The guard of [private_message] reads [users[toUserId]] on a
    plain object, so a recipient nobody registered passes it when the
    client names a property every object inherits.  With alice (socket A)
    and bob registered and no user under the key constructor, a
    [private_message] from A to constructor is not a silent no-op: once
    the store takes it, a private message to constructor is in the
    collection and A gets it back as [receive_message]. *)
Theorem C8_inherited_name_passes_guard :
  let saved :=
    Message.mk 1%N "alice" "A" "psst" "private-NaN-NaN" true
               (Some "constructor") true false [] false None 6 6 0%N in
  let r := run two_joined [Receive "A" 5 (private_message "constructor" "psst");
                           Settle 1 true 6] in
  obj_get (users two_joined) "A" = Some (User.mk "A" "alice" "general" true 1)
  /\ obj_get (users two_joined) "constructor" = None
  /\ db two_joined = []
  /\ db (fst r) = [saved]
  /\ snd r = [("A", receive_message saved)].
Proof. repeat split. Qed.

(** ** Room switch: the history *)

Lemma insert_by_createdAt_perm m l :
  Permutation (insert_by_createdAt m l) (m :: l).
Proof.
  induction l as [|x l IH]; simpl; [reflexivity|].
  destruct (Message.createdAt m <=? Message.createdAt x); [reflexivity|].
  rewrite IH. apply perm_swap.
Qed.

Lemma sort_by_createdAt_perm l : Permutation (sort_by_createdAt l) l.
Proof.
  induction l as [|x l IH]; simpl; [reflexivity|].
  rewrite insert_by_createdAt_perm. now constructor.
Qed.

Lemma insert_by_createdAt_sorted m l :
  StronglySorted older l -> StronglySorted older (insert_by_createdAt m l).
Proof.
  induction 1 as [|x l Hs IH Hx]; simpl.
  - repeat constructor.
  - destruct (Z.leb_spec (Message.createdAt m) (Message.createdAt x)).
    + constructor; [now constructor|]. constructor; [assumption|].
      eapply Forall_impl; [|exact Hx]. unfold older. intros; lia.
    + constructor; [assumption|].
      eapply Permutation_Forall.
      * symmetry. apply insert_by_createdAt_perm.
      * constructor; [unfold older; lia|assumption].
Qed.

Lemma sort_by_createdAt_sorted l : StronglySorted older (sort_by_createdAt l).
Proof.
  induction l as [|x l IH]; simpl; [constructor|].
  now apply insert_by_createdAt_sorted.
Qed.

Lemma StronglySorted_app_le {A : Type} (R : A -> A -> Prop) l1 l2 :
  StronglySorted R (l1 ++ l2) ->
  forall x y, In x l1 -> In y l2 -> R x y.
Proof.
  induction l1 as [|a l1 IH]; simpl; intros H x y Hx Hy; [destruct Hx|].
  inversion H as [|? ? Hs Ha]; subst. destruct Hx as [<-|Hx].
  - rewrite Forall_forall in Ha. apply Ha. apply in_app_iff. now right.
  - eapply IH; eauto.
Qed.

(** C2, as the spec has it, fails: the history replayed to the mover is
    not the most recent hundred messages of the room.  With 101 messages
    in the room the newest one is left out. *)
Lemma C2_counterexample :
  ~ (forall s A r now1 now2 u h,
       reachable s -> obj_get (users s) A = Some u ->
       In r rooms -> User.room u <> r ->
       In (A, message_history h)
          (snd (run s [Receive A now1 (join_room r);
                       Settle (List.length (pending s)) true now2])) ->
       h = most_recent 100 r (db s)).
Proof.
  intros H.
  specialize (H busy_random "A" "random" 200 201
                (User.mk "A" "alice" "general" true 0)
                (find_room_history "random" (db busy_random))
                (reachable_run _) eq_refl).
  assert (E : map Message._id (find_room_history "random" (db busy_random))
              = map Message._id (most_recent 100 "random" (db busy_random))).
  { f_equal. apply H.
    - simpl. tauto.
    - discriminate.
    - vm_compute. left. reflexivity. }
  vm_compute in E. discriminate.
Qed.

(** C2, amended. When a registered user moves to another public room and
    the history query is fulfilled, the packets are, in this order: the
    leave notification to the sockets left behind in the old room, the
    join notification to the other sockets of the new room, then to the
    mover alone [message_history] followed by [room_joined] with the name
    of the new room, then [user_list] to every socket.  The history is the
    first hundred messages of the new room in ascending order of creation:
    at most a hundred, and every message of the room that is left out was
    created no earlier than each one that is sent. *)
Theorem C2_join_room_history s A r now1 now2 u :
  reachable s ->
  obj_get (users s) A = Some u ->
  In r rooms ->
  User.room u <> r ->
  let old := User.room u in
  let ss1 := socket_leave A old (sockets s) in
  let ss2 := socket_join A r ss1 in
  let us := obj_set (users s) A (User.set_room r u) in
  let ordered :=
    sort_by_createdAt (filter (fun m => String.eqb (Message.room m) r) (db s)) in
  let history := firstn 100 ordered in
  snd (run s [Receive A now1 (join_room r);
              Settle (List.length (pending s)) true now2])
  = socket_broadcast_to ss1 A old
      (notification
         (Notification.mk leave (User.username u ++ " left the room")%string
                          old))
    ++ socket_broadcast_to ss2 A r
         (notification
            (Notification.mk join
               (User.username u ++ " joined the room")%string r))
    ++ [(A, message_history history); (A, room_joined r)]
    ++ io_emit ss2 (user_list (user_list_all us))
  /\ (List.length history <= 100)%nat
  /\ ordered = history ++ skipn 100 ordered
  /\ Permutation ordered
       (filter (fun m => String.eqb (Message.room m) r) (db s))
  /\ StronglySorted older ordered
  /\ (forall x y, In x history -> In y (skipn 100 ordered) -> older x y).
Proof.
  intros R Hu Hr Hne old ss1 ss2 us ordered history.
  pose proof (reachable_Inv s R) as I.
  assert (Hc : connected (sockets s) A = true).
  { apply (inv_registered s I). eapply obj_get_In_keys; eauto. }
  assert (Hs : StronglySorted older ordered)
    by apply sort_by_createdAt_sorted.
  assert (Hsplit : ordered = history ++ skipn 100 ordered)
    by (symmetry; apply firstn_skipn).
  split; [|split; [|split; [|split; [|split]]]].
  - cbn [run].
    replace (step s (Receive A now1 (join_room r)))
      with (suspend (AwaitJoinRoomHistory A r)
                    (set_users us (set_sockets ss2 s)),
            socket_broadcast_to ss1 A old
              (notification
                 (Notification.mk leave
                    (User.username u ++ " left the room")%string old))
            ++ socket_broadcast_to ss2 A r
                 (notification
                    (Notification.mk join
                       (User.username u ++ " joined the room")%string r))).
    2:{ simpl. rewrite Hc. simpl. unfold handle_join_room. rewrite Hu.
        apply includes_In in Hr. rewrite Hr.
        destruct (String.eqb_spec (User.room u) r); [contradiction|].
        reflexivity. }
    change (List.length (pending s))
      with (List.length (pending (set_users us (set_sockets ss2 s)))).
    rewrite step_suspend_settle. cbn [resume snd fst].
    cbn [sockets users db set_users set_sockets].
    unfold socket_emit.
    assert (Hc2 : connected ss2 A = true).
    { unfold ss2, ss1. now rewrite connected_join, connected_leave. }
    rewrite Hc2. rewrite app_nil_r, <- !app_assoc. reflexivity.
  - apply firstn_le_length.
  - exact Hsplit.
  - apply sort_by_createdAt_perm.
  - exact Hs.
  - intros x y Hx Hy. rewrite Hsplit in Hs.
    eapply StronglySorted_app_le; eauto.
Qed.

Lemma C2_witness :
  In ("A", room_joined "random")
     (snd (run two_joined [Receive "A" 5 (join_room "random");
                           Settle 1 true 6])).
Proof.
  destruct (C2_join_room_history two_joined "A" "random" 5 6
              (User.mk "A" "alice" "general" true 1)
              (reachable_run _) eq_refl) as [H _].
  - simpl. tauto.
  - discriminate.
  - change (List.length (pending two_joined)) with 1%nat in H.
    rewrite H. apply in_app_iff. right. apply in_app_iff. right.
    simpl. tauto.
Defined.

(** ** The private room id *)

(** X18. The private room id does not depend on which of the two
    connections sends: the id computed for a sender and a recipient is the
    id computed with the two swapped, whatever the two strings are. *)
Lemma deriveRoomId_sym a b : deriveRoomId a b = deriveRoomId b a.
Proof.
  unfold deriveRoomId, JS.Math_min, JS.Math_max. simpl map.
  now rewrite (min_loop_comm (JS.StringToNumber a)),
              (max_loop_comm (JS.StringToNumber a)).
Qed.

(** X19. As soon as one of the two ids is not a numeric literal the
    private room id is the one string private-NaN-NaN, whatever the other
    id is: all such pairs share one room name. *)
Lemma deriveRoomId_NaN a b :
  JS.StringToNumber a = JS.NaN \/ JS.StringToNumber b = JS.NaN ->
  deriveRoomId a b = "private-NaN-NaN".
Proof.
  unfold deriveRoomId, JS.Math_min, JS.Math_max. simpl map.
  intros [H|H]; rewrite H.
  - reflexivity.
  - destruct (JS.StringToNumber a); reflexivity.
Qed.

Example deriveRoomId_numeric :
  deriveRoomId "12" "7" = "private-7-12"
  /\ deriveRoomId "7" "12" = "private-7-12"
  /\ deriveRoomId "007" "7" = "private-7-7"
  /\ deriveRoomId "1e3" "0x10" = "private-16-1000".
Proof. vm_compute. auto. Qed.

(** C1. The two ids are not put in order as strings: [Math.min] and
    [Math.max] turn them into numbers first.  A Socket.IO id is not a
    numeric literal, so both turn into NaN, and every pair of connections
    gets the same room id, in which neither id occurs. *)
Theorem C1_private_room_of_socket_ids :
  deriveRoomId "Xq3kU9bAAAAAAAAAAAAB" "mP0aTzRfAAAAAAAAAAAD"
  = "private-NaN-NaN"
  /\ deriveRoomId "Xq3kU9bAAAAAAAAAAAAB" "hJ7sLw2eAAAAAAAAAAAF"
     = deriveRoomId "Xq3kU9bAAAAAAAAAAAAB" "mP0aTzRfAAAAAAAAAAAD".
Proof. vm_compute. auto. Qed.

(** * Further properties of the handlers and the routes *)

(** ** Sending a message *)

Lemma set_pending_same s : set_pending (pending s) s = s.
Proof. now destruct s. Qed.

Lemma or_else_nonempty a b : b <> "" -> or_else a b <> "".
Proof.
  intros Hb. destruct a as [x|]; simpl; [|assumption].
  destruct (String.eqb_spec x ""); assumption.
Qed.

Lemma image_placeholder_nonempty : image_placeholder <> "".
Proof. discriminate. Qed.

Lemma eqb_empty_false x : x <> "" -> String.eqb x "" = false.
Proof. intros H. now destruct (String.eqb_spec x ""). Qed.

Lemma In_room_members ss r t :
  In t (room_members ss r) <-> exists rs, In (t, rs) ss /\ In r rs.
Proof.
  unfold room_members. rewrite in_map_iff. split.
  - intros [[i rs] [<- H]]. apply filter_In in H as [H1 H2].
    apply includes_In in H2. eauto.
  - intros [rs [H1 H2]]. exists (t, rs). split; [reflexivity|].
    apply filter_In. split; [assumption|]. now apply includes_In.
Qed.

Lemma send_message_run s sid now1 now2 message room image u :
  connected (sockets s) sid = true ->
  obj_get (users s) sid = Some u -> sid <> "" -> User.username u <> "" ->
  let saved :=
    Message.stamp (next_id s) now2 (sent_message sid u message room image) in
  run s [Receive sid now1 (send_message message room image);
         Settle (List.length (pending s)) true now2]
  = (set_next_id (N.succ (next_id s)) (set_db (db s ++ [saved]) s),
     map (fun t => (t, receive_message saved))
         (room_members (sockets s) (or_else room (User.room u)))).
Proof.
  intros Hc Hu Hsid Hname saved.
  assert (Hbody : or_else message image_placeholder <> "")
    by apply or_else_nonempty, image_placeholder_nonempty.
  cbn [run].
  replace (step s (Receive sid now1 (send_message message room image)))
    with (suspend
            (AwaitSendSave (or_else room (User.room u))
                           (sent_message sid u message room image)) s,
          @nil Emit)
    by (simpl; rewrite Hc; simpl; unfold handle_send_message;
        now rewrite Hu).
  rewrite step_suspend_settle. cbn [resume]. unfold save_new.
  unfold Message.validate, sent_message.
  cbn [Message.sender Message.senderId Message.message Message.new].
  rewrite !eqb_empty_false by assumption. cbn [negb andb].
  cbn [sockets set_next_id set_db].
  rewrite io_to_members. cbn [app]. now rewrite app_nil_r.
Qed.

(** X1. [send_message] from a socket that is not registered does nothing.
    From a registered one (with a name), once the save is fulfilled, the
    message is appended to the store with the next id, the name and id of
    the sender, the given room or else the room of the user, and the
    given text or else the placeholder, never an empty body; and
    [receive_message] goes to the sockets of that room, to each once and
    to no other. *)
Theorem X1_send_message_delivery s sid now1 now2 message room image :
  reachable s ->
  (obj_get (users s) sid = None ->
   step s (Receive sid now1 (send_message message room image)) = (s, []))
  /\
  (forall u,
     obj_get (users s) sid = Some u -> sid <> "" -> User.username u <> "" ->
     let targetRoom := or_else room (User.room u) in
     let saved :=
       Message.stamp (next_id s) now2
         (Message.new (User.username u) sid
                      (or_else message image_placeholder) targetRoom false
                      None (or_null image)) in
     run s [Receive sid now1 (send_message message room image);
            Settle (List.length (pending s)) true now2]
     = (set_next_id (N.succ (next_id s)) (set_db (db s ++ [saved]) s),
        map (fun t => (t, receive_message saved))
            (room_members (sockets s) targetRoom))
     /\ Message.message saved <> "").
Proof.
  intros R. pose proof (reachable_Inv s R) as I. split.
  - intros Hu. simpl. destruct (connected (sockets s) sid); [|reflexivity].
    simpl. unfold handle_send_message. now rewrite Hu.
  - intros u Hu Hsid Hname targetRoom saved.
    assert (Hc : connected (sockets s) sid = true).
    { apply (inv_registered s I). eapply obj_get_In_keys; eauto. }
    split.
    + now apply send_message_run.
    + apply or_else_nonempty, image_placeholder_nonempty.
Qed.

Lemma X1_witness :
  snd (run two_joined [Receive "A" 5 (send_message None None (Some "pic.png"));
                       Settle 1 true 6])
  = let saved :=
      Message.mk 1%N "alice" "A" image_placeholder "general" false None
                 true false [] false (Some "pic.png") 6 6 0%N in
    [("A", receive_message saved); ("B", receive_message saved)].
Proof.
  pose proof (proj2 (X1_send_message_delivery two_joined "A" 5 6 None None
                       (Some "pic.png") (reachable_run _))
                    (User.mk "A" "alice" "general" true 1) eq_refl) as H.
  destruct H as [H _]; [discriminate|discriminate|].
  change (List.length (pending two_joined)) with 1%nat in H.
  rewrite H. reflexivity.
Defined.

(** ** Registry and adapter *)

Lemma room_members_join_mono sid r ss r' t :
  In t (room_members ss r') -> In t (room_members (socket_join sid r ss) r').
Proof.
  rewrite !In_room_members. intros [rs [H1 H2]].
  unfold socket_join.
  exists (if String.eqb t sid
          then (if includes rs r then rs else rs ++ [r]) else rs).
  split.
  - apply in_map_iff. exists (t, rs). split; [|assumption]. simpl.
    now destruct (String.eqb t sid).
  - destruct (String.eqb t sid); [|assumption].
    destruct (includes rs r); [assumption|]. apply in_app_iff. now left.
Qed.

Lemma room_members_join_self sid r ss :
  connected ss sid = true -> In sid (room_members (socket_join sid r ss) r).
Proof.
  intros Hc. apply connected_In in Hc. apply in_map_iff in Hc as [[i rs] [E H]].
  simpl in E. subst i. apply In_room_members.
  exists (if includes rs r then rs else rs ++ [r]). split.
  - unfold socket_join. apply in_map_iff. exists (sid, rs). simpl.
    now rewrite String.eqb_refl.
  - destruct (includes rs r) eqn:E; [now apply includes_In|].
    apply in_app_iff. right. now left.
Qed.

Lemma room_members_leave_other sid r ss r' t :
  t <> sid -> In t (room_members ss r') ->
  In t (room_members (socket_leave sid r ss) r').
Proof.
  rewrite !In_room_members. intros Hne [rs [H1 H2]]. exists rs.
  split; [|assumption]. unfold socket_leave. apply in_map_iff.
  exists (t, rs). split; [|assumption]. simpl.
  now destruct (String.eqb_spec t sid).
Qed.

Lemma room_members_leave_self sid r ss :
  ~ In sid (room_members (socket_leave sid r ss) r).
Proof.
  rewrite In_room_members. intros [rs [H1 H2]].
  unfold socket_leave in H1. apply in_map_iff in H1 as [[i rs0] [E _]].
  simpl in E. destruct (String.eqb_spec i sid).
  - injection E as _ <-. apply filter_In in H2 as [_ H2].
    now rewrite String.eqb_refl in H2.
  - injection E as -> _. contradiction.
Qed.

Lemma room_members_remove sid ss r t :
  In t (room_members (socket_remove sid ss) r)
  <-> In t (room_members ss r) /\ t <> sid.
Proof.
  rewrite !In_room_members. split.
  - intros [rs [H1 H2]]. apply socket_remove_In in H1 as [H1 Hne]. eauto.
  - intros [[rs [H1 H2]] Hne]. exists rs. split; [|assumption].
    apply socket_remove_In. auto.
Qed.

Lemma room_members_app ss1 ss2 r :
  room_members (ss1 ++ ss2) r = room_members ss1 r ++ room_members ss2 r.
Proof. unfold room_members. now rewrite filter_app, map_app. Qed.

Lemma subscribed_step s i : Inv s -> subscribed s -> subscribed (fst (step s i)).
Proof.
  intros I S. destruct i as [sid|sid now e|sid|k ok now]; simpl.
  - destruct (connected (sockets s) sid || includes (closed s) sid);
      [assumption|]. intros k u H. simpl in *.
    rewrite room_members_app, in_app_iff. left. now apply S.
  - destruct (connected (sockets s) sid) eqn:Hc; [|assumption].
    destruct e; simpl; try assumption.
    + intros k u H. simpl in *. apply obj_set_In in H as [H|H].
      * injection H as -> ->. simpl. now apply room_members_join_self.
      * apply room_members_join_mono. now apply S.
    + unfold handle_send_message. now destruct (obj_get (users s) sid).
    + unfold handle_join_room.
      destruct (obj_get (users s) sid) as [user|] eqn:Eu; [|assumption].
      destruct (negb (includes rooms newRoom) || _); [assumption|].
      intros k u H. simpl in *.
      destruct (obj_set_In_nodup _ _ _ _ (inv_keys s I) H) as [H'|[H' Hne]].
      * injection H' as -> ->. simpl. apply room_members_join_self.
        now rewrite connected_leave.
      * simpl in Hne. apply room_members_join_mono.
        apply room_members_leave_other; [assumption|]. now apply S.
    + unfold handle_typing_start.
      now destruct (obj_get (users s) sid).
    + unfold handle_typing_stop.
      now destruct (obj_get (users s) sid).
    + unfold handle_private_message.
      destruct (obj_get (users s) sid); [|assumption].
      now destruct (truthy_at (users s) toUserId).
  - destruct (connected (sockets s) sid); [|assumption].
    unfold handle_disconnect. simpl.
    destruct (obj_get (users s) sid) as [user|] eqn:Eu; simpl.
    + intros k u H. simpl in *. apply obj_delete_In in H as [H Hne].
      simpl in Hne.
      destruct (obj_set_In_nodup _ _ _ _ (inv_keys s I) H) as [H'|[H' _]];
        [congruence|].
      apply room_members_remove. split; [now apply S|assumption].
    + intros k u H. simpl in *. apply room_members_remove.
      split; [now apply S|]. intros ->.
      apply obj_get_None_keys in Eu. apply Eu.
      unfold obj_keys. now apply (in_map fst) in H.
  - destruct (nth_error (pending s) k) as [t|]; [|assumption].
    destruct ok.
    + destruct (resume_frame t now (set_pending (remove_nth k (pending s)) s))
        as (E1 & _ & E3 & _).
      intros k' u H. rewrite E1 in H. rewrite E3. now apply S.
    + unfold reject. destruct (caught t || _); [assumption|].
      intros k' u [].
Qed.

Lemma reachable_subscribed s : reachable s -> subscribed s.
Proof.
  induction 1 as [| |s i R IH]; [intros k u []|intros k u []|].
  apply subscribed_step; [now apply reachable_Inv|assumption].
Qed.

(** X2. In every state the server can reach, the socket of a registered
    user is subscribed to the room the registry has for that user, so a
    user who sends a message without naming a room gets it back with the
    other sockets of the room. *)
Theorem X2_sender_hears_own_room s sid now1 now2 message image u :
  reachable s ->
  obj_get (users s) sid = Some u -> sid <> "" -> User.username u <> "" ->
  In sid (room_members (sockets s) (User.room u))
  /\ exists saved,
       In (sid, receive_message saved)
          (snd (run s [Receive sid now1 (send_message message None image);
                       Settle (List.length (pending s)) true now2]))
       /\ Message.room saved = User.room u.
Proof.
  intros R Hu Hsid Hname.
  assert (Hin : In sid (room_members (sockets s) (User.room u))).
  { apply (reachable_subscribed s R). now apply obj_get_Some_In. }
  split; [assumption|].
  pose proof (reachable_Inv s R) as I.
  assert (Hc : connected (sockets s) sid = true).
  { apply (inv_registered s I). eapply obj_get_In_keys; eauto. }
  rewrite (send_message_run s sid now1 now2 message None image u Hc Hu
             Hsid Hname).
  eexists. split; [cbn [snd or_else]; apply in_map_iff; eauto|reflexivity].
Qed.

Lemma X2_witness :
  In "A" (room_members (sockets two_joined) "general")
  /\ exists saved,
       In ("A", receive_message saved)
          (snd (run two_joined [Receive "A" 5 (send_message (Some "hi") None None);
                                Settle 1 true 6]))
       /\ Message.room saved = "general".
Proof.
  apply (X2_sender_hears_own_room two_joined "A" 5 6 (Some "hi") None
           (User.mk "A" "alice" "general" true 1)).
  - apply reachable_run.
  - reflexivity.
  - discriminate.
  - discriminate.
Defined.

(** X3. [user_join] never takes the socket out of a room.  A registered
    user who sends [user_join] again is put back in the room general by
    the registry while the socket stays subscribed to the room the user
    was in, and goes on receiving what is sent to it. *)
Theorem X3_rejoin_keeps_old_room s sid now username u :
  reachable s ->
  obj_get (users s) sid = Some u ->
  let s' := fst (step s (Receive sid now (user_join username))) in
  (exists u', obj_get (users s') sid = Some u' /\ User.room u' = "general")
  /\ In sid (room_members (sockets s') (User.room u))
  /\ In sid (room_members (sockets s') "general").
Proof.
  intros R Hu s'. pose proof (reachable_Inv s R) as I.
  assert (Hc : connected (sockets s) sid = true).
  { apply (inv_registered s I). eapply obj_get_In_keys; eauto. }
  unfold s'. simpl. rewrite Hc. simpl. split; [|split].
  - eexists. split; [apply obj_get_set_eq|reflexivity].
  - apply room_members_join_mono. apply (reachable_subscribed s R).
    now apply obj_get_Some_In.
  - now apply room_members_join_self.
Qed.

Lemma X3_witness :
  let s' := fst (step moved_to_random (Receive "A" 7 (user_join "alice"))) in
  (exists u', obj_get (users s') "A" = Some u' /\ User.room u' = "general")
  /\ In "A" (room_members (sockets s') "random")
  /\ In "A" (room_members (sockets s') "general").
Proof.
  apply (X3_rejoin_keeps_old_room moved_to_random "A" 7 "alice"
           (User.mk "A" "alice" "random" true 1)).
  - apply run_reachable, reachable_run.
  - reflexivity.
Defined.

(** X4. A [join_room] that passes the guard moves the socket: the
    registry has the new room for the user, the socket is subscribed to
    the new room and no longer to the old one, and every other user keeps
    room and subscription. *)
Theorem X4_join_room_moves s sid now newRoom u :
  reachable s ->
  obj_get (users s) sid = Some u ->
  In newRoom rooms ->
  User.room u <> newRoom ->
  let s' := fst (step s (Receive sid now (join_room newRoom))) in
  obj_get (users s') sid = Some (User.set_room newRoom u)
  /\ In sid (room_members (sockets s') newRoom)
  /\ ~ In sid (room_members (sockets s') (User.room u))
  /\ (forall k, k <> sid ->
        obj_get (users s') k = obj_get (users s) k
        /\ forall r, In k (room_members (sockets s') r)
                     <-> In k (room_members (sockets s) r)).
Proof.
  intros R Hu Hr Hne s'. pose proof (reachable_Inv s R) as I.
  assert (Hc : connected (sockets s) sid = true).
  { apply (inv_registered s I). eapply obj_get_In_keys; eauto. }
  unfold s'. simpl. rewrite Hc. simpl. unfold handle_join_room. rewrite Hu.
  apply includes_In in Hr. rewrite Hr.
  destruct (String.eqb_spec (User.room u) newRoom); [contradiction|].
  simpl. split; [|split; [|split]].
  - apply obj_get_set_eq.
  - apply room_members_join_self. now rewrite connected_leave.
  - rewrite In_room_members. intros [rs [H1 H2]].
    apply socket_join_In in H1 as [rs0 [H1 Hrs]].
    assert (Hn : ~ In (User.room u) rs0).
    { intros Hin.
      apply (room_members_leave_self sid (User.room u) (sockets s)).
      apply In_room_members. eauto. }
    destruct Hrs as [->|[_ ->]]; [contradiction|].
    apply in_app_iff in H2 as [H2|[H2|[]]]; [contradiction|congruence].
  - intros k Hk. split; [now apply obj_get_set_neq|].
    intros r. rewrite !In_room_members. split; intros [rs [H1 H2]].
    + apply socket_join_In in H1 as [rs0 [H1 [->|[-> _]]]]; [|contradiction].
      apply socket_leave_In in H1 as [rs1 [H1 [->|[-> _]]]]; [|contradiction].
      eauto.
    + exists rs. split; [|assumption].
      unfold socket_join, socket_leave. rewrite map_map.
      apply in_map_iff. exists (k, rs). split; [|assumption]. simpl.
      destruct (String.eqb_spec k sid); [contradiction|]. simpl.
      now destruct (String.eqb_spec k sid).
Qed.

Lemma X4_witness :
  let s' := fst (step two_joined (Receive "A" 5 (join_room "random"))) in
  obj_get (users s') "A" = Some (User.mk "A" "alice" "random" true 1)
  /\ In "A" (room_members (sockets s') "random")
  /\ ~ In "A" (room_members (sockets s') "general").
Proof.
  pose proof (X4_join_room_moves two_joined "A" 5 "random"
                (User.mk "A" "alice" "general" true 1)
                (reachable_run _) eq_refl) as H.
  destruct H as (H1 & H2 & H3 & _).
  - simpl. tauto.
  - discriminate.
  - repeat split; assumption.
Defined.

(** ** Editing, reading and deleting a message *)

Lemma findById_app id db x :
  findById id (db ++ [x])
  = match findById id db with
    | Some m => Some m
    | None => if N.eqb (Message._id x) id then Some x else None
    end.
Proof.
  unfold findById. induction db as [|y db IH]; simpl; [reflexivity|].
  now destruct (N.eqb (Message._id y) id).
Qed.

Lemma findById_delete id db : findById id (delete_doc id db) = None.
Proof.
  unfold findById, delete_doc. induction db as [|x db IH]; simpl;
    [reflexivity|].
  destruct (N.eqb (Message._id x) id) eqn:E; simpl; [assumption|].
  now rewrite E.
Qed.

Lemma findById_delete_other id id' db :
  id' <> id -> findById id' (delete_doc id db) = findById id' db.
Proof.
  unfold findById, delete_doc. intros Hne.
  induction db as [|x db IH]; simpl; [reflexivity|].
  destruct (N.eqb_spec (Message._id x) id) as [E|E]; simpl.
  - destruct (N.eqb_spec (Message._id x) id'); [congruence|assumption].
  - destruct (N.eqb_spec (Message._id x) id'); [reflexivity|assumption].
Qed.

Lemma update_run s sid now1 now2 (e : ClientEvent) t :
  connected (sockets s) sid = true ->
  handle sid now1 e s = (suspend t s, []) ->
  run s [Receive sid now1 e; Settle (List.length (pending s)) true now2]
  = resume t now2 s.
Proof.
  intros Hc He. cbn [run].
  assert (E : step s (Receive sid now1 e) = (suspend t s, []))
    by (cbn [step]; now rewrite Hc).
  rewrite E, step_suspend_settle. destruct (resume t now2 s) as [s2 o2].
  cbn [app]. now rewrite app_nil_r.
Qed.

(** X5. [edit_message] asks nothing of its sender: from any connected
    socket, registered or not, author or not.  When the message exists the
    stored document takes the new text, [edited] and a new [updatedAt] and
    keeps every other path, no other document changes, and
    [message_updated] with the new document goes to the sockets of the room
    of the message; when it does not exist nothing changes and nothing is
    sent. *)
Theorem X5_edit_message s sid now1 now2 id content :
  connected (sockets s) sid = true ->
  let r := run s [Receive sid now1 (edit_message id content);
                  Settle (List.length (pending s)) true now2] in
  match findById id (db s) with
  | Some m =>
      let updated :=
        Message.set_updatedAt now2 (Message.set_message_edited content m) in
      findById id (db (fst r)) = Some updated
      /\ snd r = map (fun t => (t, message_updated updated))
                     (room_members (sockets s) (Message.room m))
      /\ (forall id', id' <> id ->
            findById id' (db (fst r)) = findById id' (db s))
      /\ same_registry s (fst r)
  | None => r = (s, [])
  end.
Proof.
  intros Hc r. unfold r.
  rewrite (update_run s sid now1 now2 (edit_message id content)
             (AwaitEditUpdate id content) Hc eq_refl).
  cbn [resume]. unfold findByIdAndUpdate.
  destruct (findById id (db s)) as [m|] eqn:Em; [|reflexivity].
  cbn [fst snd db set_db sockets]. split; [|split; [|split]].
  - now apply (findById_update id
                 (fun x => Message.set_updatedAt now2
                             (Message.set_message_edited content x))
                 (db s) m).
  - now rewrite io_to_members.
  - intros id' Hne. now apply findById_update_other.
  - repeat split.
Qed.

Lemma X5_witness :
  snd (run one_message [Receive "B" 7 (edit_message 1%N "bye");
                        Settle 1 true 8])
  = let updated :=
      Message.mk 1%N "alice" "A" "bye" "general" false None true false []
                 true None 6 8 0%N in
    [("A", message_updated updated); ("B", message_updated updated)].
Proof.
  pose proof (X5_edit_message one_message "B" 7 8 1%N "bye" eq_refl) as H.
  cbv zeta in H.
  change (findById 1%N (db one_message))
    with (Some (Message.mk 1%N "alice" "A" "hi" "general" false None true
                           false [] false None 6 6 0%N)) in H.
  destruct H as (_ & H & _).
  change (List.length (pending one_message)) with 1%nat in H.
  rewrite H. reflexivity.
Defined.

Lemma set_read_read m : Message.read m = true -> Message.set_read m = m.
Proof. destruct m; simpl; now intros ->. Qed.

(** X6. [message_read] asks nothing of its sender either.  When the
    message exists the stored document gets [read] and a new [updatedAt]
    and keeps every other path, no other document changes, and
    [message_updated] goes to the sockets of the room of the message;
    marking a message that is read already changes [updatedAt] only.  When
    the message does not exist nothing changes and nothing is sent. *)
Theorem X6_message_read s sid now1 now2 id :
  connected (sockets s) sid = true ->
  let r := run s [Receive sid now1 (message_read id);
                  Settle (List.length (pending s)) true now2] in
  match findById id (db s) with
  | Some m =>
      let updated := Message.set_updatedAt now2 (Message.set_read m) in
      findById id (db (fst r)) = Some updated
      /\ (Message.read m = true -> updated = Message.set_updatedAt now2 m)
      /\ snd r = map (fun t => (t, message_updated updated))
                     (room_members (sockets s) (Message.room m))
      /\ (forall id', id' <> id ->
            findById id' (db (fst r)) = findById id' (db s))
      /\ same_registry s (fst r)
  | None => r = (s, [])
  end.
Proof.
  intros Hc r. unfold r.
  rewrite (update_run s sid now1 now2 (message_read id)
             (AwaitReadUpdate id) Hc eq_refl).
  cbn [resume]. unfold findByIdAndUpdate.
  destruct (findById id (db s)) as [m|] eqn:Em; [|reflexivity].
  cbn [fst snd db set_db sockets]. split; [|split; [|split; [|split]]].
  - now apply (findById_update id
                 (fun x => Message.set_updatedAt now2 (Message.set_read x))
                 (db s) m).
  - intros Hr. now rewrite set_read_read.
  - now rewrite io_to_members.
  - intros id' Hne. now apply findById_update_other.
  - repeat split.
Qed.

Lemma X6_witness :
  snd (run one_message [Receive "B" 7 (message_read 1%N); Settle 1 true 8])
  = let updated :=
      Message.mk 1%N "alice" "A" "hi" "general" false None true true []
                 false None 6 8 0%N in
    [("A", message_updated updated); ("B", message_updated updated)].
Proof.
  pose proof (X6_message_read one_message "B" 7 8 1%N eq_refl) as H.
  cbv zeta in H.
  change (findById 1%N (db one_message))
    with (Some (Message.mk 1%N "alice" "A" "hi" "general" false None true
                           false [] false None 6 6 0%N)) in H.
  destruct H as (_ & _ & H & _).
  change (List.length (pending one_message)) with 1%nat in H.
  rewrite H. reflexivity.
Defined.

Lemma nth_error_length_None {A : Type} (l : list A) :
  nth_error l (List.length l) = None.
Proof. apply nth_error_None. lia. Qed.

(** X7. [delete_message], from any connected socket: when the message
    exists and both awaits are fulfilled the document is gone from the
    store, no other document changes, and [message_deleted] with the id
    goes to the sockets of the room the message had; when it does not
    exist nothing changes and nothing is sent. *)
Theorem X7_delete_message s sid now1 now2 now3 id :
  connected (sockets s) sid = true ->
  let k := List.length (pending s) in
  let r := run s [Receive sid now1 (delete_message id);
                  Settle k true now2; Settle k true now3] in
  match findById id (db s) with
  | Some m =>
      findById id (db (fst r)) = None
      /\ snd r = map (fun t => (t, message_deleted id))
                     (room_members (sockets s) (Message.room m))
      /\ (forall id', id' <> id ->
            findById id' (db (fst r)) = findById id' (db s))
      /\ same_registry s (fst r)
  | None => r = (s, [])
  end.
Proof.
  intros Hc k r. unfold r, k. cbn [run].
  assert (E : step s (Receive sid now1 (delete_message id))
              = (suspend (AwaitDeleteFind id) s, []))
    by (cbn [step]; now rewrite Hc).
  rewrite E, step_suspend_settle. cbn [resume].
  destruct (findById id (db s)) as [m|] eqn:Em.
  - rewrite step_suspend_settle. cbn [resume fst snd app db set_db].
    rewrite app_nil_r. split; [|split; [|split]].
    + apply findById_delete.
    + now rewrite io_to_members.
    + intros id' Hne. now apply findById_delete_other.
    + repeat split.
  - cbn [step]. now rewrite nth_error_length_None.
Qed.

Lemma X7_witness :
  let r := run one_message [Receive "B" 7 (delete_message 1%N);
                            Settle 1 true 8; Settle 1 true 9] in
  findById 1%N (db (fst r)) = None
  /\ snd r = [("A", message_deleted 1%N); ("B", message_deleted 1%N)].
Proof.
  pose proof (X7_delete_message one_message "B" 7 8 9 1%N eq_refl) as H.
  cbv zeta in H.
  change (findById 1%N (db one_message))
    with (Some (Message.mk 1%N "alice" "A" "hi" "general" false None true
                           false [] false None 6 6 0%N)) in H.
  destruct H as (H1 & H2 & _).
  change (List.length (pending one_message)) with 1%nat in H1, H2.
  split; [exact H1|]. rewrite H2. reflexivity.
Defined.

(** ** What a stored message keeps *)

Lemma same_identity_refl m : same_identity m m.
Proof. repeat split; auto. Qed.

Lemma same_identity_trans m1 m2 m3 :
  same_identity m1 m2 -> same_identity m2 m3 -> same_identity m1 m3.
Proof.
  unfold same_identity. intros H1 H2.
  destruct H1 as (A1 & A2 & A3 & A4 & A5 & A6 & A7 & A8 & A9 & A10 & A11).
  destruct H2 as (B1 & B2 & B3 & B4 & B5 & B6 & B7 & B8 & B9 & B10 & B11).
  repeat split; try congruence; auto.
Qed.

Lemma step_db_change s i :
  db_change (db s) (next_id s)
            (db (fst (step s i))) (next_id (fst (step s i))).
Proof.
  assert (Keep : forall s', db s' = db s -> next_id s' = next_id s ->
            db_change (db s) (next_id s) (db s') (next_id s')).
  { intros s' -> ->. constructor. }
  destruct i as [sid|sid now e|sid|k ok now]; simpl.
  - apply Keep; now destruct (connected (sockets s) sid || _).
  - destruct (connected (sockets s) sid); [|constructor].
    destruct e; simpl; try constructor.
    + unfold handle_send_message.
      destruct (obj_get (users s) sid); constructor.
    + unfold handle_join_room. destruct (obj_get (users s) sid); [|constructor].
      destruct (negb (includes rooms newRoom) || _); constructor.
    + unfold handle_typing_start.
      destruct (obj_get (users s) sid); constructor.
    + unfold handle_typing_stop.
      destruct (obj_get (users s) sid); constructor.
    + unfold handle_private_message.
      destruct (obj_get (users s) sid); [|constructor].
      destruct (truthy_at (users s) toUserId); constructor.
  - destruct (connected (sockets s) sid); [|constructor].
    unfold handle_disconnect. simpl.
    destruct (obj_get (users s) sid); constructor.
  - destruct (nth_error (pending s) k) as [t|]; [|constructor].
    destruct ok;
      [|unfold reject; destruct (caught t || _); constructor].
    destruct t; simpl; try constructor.
    + unfold save_new. destruct (Message.validate newMessage);
        [|constructor]. simpl. now constructor.
    + unfold findByIdAndUpdate. simpl.
      destruct (findById id (db s)); [|constructor].
      simpl. constructor. intros x. repeat split; auto.
    + destruct (findById id (db s)); constructor.
    + destruct (findById messageId (db s)); constructor.
    + unfold save_reactions. simpl.
      destruct (findById (Message._id message) (db s)) as [stored|];
        [|constructor].
      destruct (version_matches delta message stored); [|constructor].
      simpl. constructor. intros x. destruct delta; repeat split; auto.
    + unfold findByIdAndUpdate. simpl.
      destruct (findById messageId (db s)); [|constructor].
      simpl. constructor. intros x. repeat split; auto.
    + unfold save_new. destruct (Message.validate newMessage);
        [|constructor]. simpl. now constructor.
Qed.

Lemma same_identity_id x y : same_identity x y -> Message._id y = Message._id x.
Proof. now intros [H _]. Qed.

Lemma db_change_identity d n d' n' id m :
  db_change d n d' n' ->
  findById id d = Some m ->
  findById id d' = None
  \/ exists m', findById id d' = Some m' /\ same_identity m m'.
Proof.
  intros C Hm. destruct C as [|x Hx|id' write Hw|id'].
  - right. exists m. split; [assumption|apply same_identity_refl].
  - right. exists m. rewrite findById_app, Hm.
    split; [reflexivity|apply same_identity_refl].
  - right. destruct (N.eq_dec id id') as [<-|Hne].
    + exists (write m). split; [|apply Hw].
      apply findById_update; [|assumption].
      intros x. apply same_identity_id, Hw.
    + exists m. split; [|apply same_identity_refl].
      rewrite findById_update_other; auto.
      intros x. apply same_identity_id, Hw.
  - destruct (N.eq_dec id id') as [<-|Hne].
    + left. apply findById_delete.
    + right. exists m. rewrite findById_delete_other by assumption.
      split; [assumption|apply same_identity_refl].
Qed.

Lemma db_change_below d n d' n' :
  db_change d n d' n' -> ids_below d n -> ids_below d' n' /\ (n <= n')%N.
Proof.
  unfold ids_below. intros C B. destruct C as [|x Hx|id' write Hw|id'].
  - split; [assumption|lia].
  - split; [|lia]. apply Forall_app. split.
    + eapply Forall_impl; [|exact B]. simpl. intros; lia.
    + constructor; [lia|constructor].
  - split; [|lia]. unfold update_doc. apply Forall_forall. intros y Hy.
    apply in_map_iff in Hy as [x [<- Hx]].
    rewrite Forall_forall in B. specialize (B x Hx).
    destruct (N.eqb (Message._id x) id'); [|assumption].
    now rewrite (same_identity_id _ _ (Hw x)).
  - split; [|lia]. unfold delete_doc. apply Forall_forall. intros y Hy.
    apply filter_In in Hy as [Hy _]. rewrite Forall_forall in B. auto.
Qed.

Lemma findById_None id d :
  findById id d = None <-> forall x, In x d -> Message._id x <> id.
Proof.
  unfold findById. split.
  - intros H x Hx E. apply (find_none _ _ H) in Hx.
    apply N.eqb_neq in Hx. contradiction.
  - intros H. induction d as [|y d IH]; simpl; [reflexivity|].
    destruct (N.eqb_spec (Message._id y) id) as [E|E].
    + exfalso. apply (H y); [now left|assumption].
    + apply IH. intros x Hx. apply H. now right.
Qed.

Lemma db_change_absent d n d' n' id :
  db_change d n d' n' -> (id < n)%N ->
  findById id d = None -> findById id d' = None.
Proof.
  intros C Hlt Hn. rewrite findById_None in *.
  destruct C as [|x Hx|id' write Hw|id'].
  - assumption.
  - intros y Hy. apply in_app_iff in Hy as [Hy|[<-|[]]]; [auto|lia].
  - intros y Hy. unfold update_doc in Hy.
    apply in_map_iff in Hy as [x [<- Hx]].
    destruct (N.eqb (Message._id x) id'); [|auto].
    rewrite (same_identity_id _ _ (Hw x)). auto.
  - intros y Hy. apply filter_In in Hy as [Hy _]. auto.
Qed.

Lemma run_ids_below inputs : forall s,
  ids_below (db s) (next_id s) ->
  ids_below (db (fst (run s inputs))) (next_id (fst (run s inputs)))
  /\ (next_id s <= next_id (fst (run s inputs)))%N.
Proof.
  induction inputs as [|i rest IH]; intros s B; simpl; [split; [auto|lia]|].
  pose proof (step_db_change s i) as C.
  destruct (step s i) as [s1 o1]. simpl in C.
  destruct (db_change_below _ _ _ _ C B) as [B1 L1].
  destruct (IH s1 B1) as [B2 L2].
  destruct (run s1 rest) as [s2 o2]. simpl in *. split; [assumption|lia].
Qed.

Lemma reachable_ids_below s : reachable s -> ids_below (db s) (next_id s).
Proof.
  induction 1 as [| |s i R IH]; [constructor|constructor|].
  exact (proj1 (db_change_below _ _ _ _ (step_db_change s i) IH)).
Qed.

Lemma run_absent inputs : forall s id,
  ids_below (db s) (next_id s) -> (id < next_id s)%N ->
  findById id (db s) = None -> findById id (db (fst (run s inputs))) = None.
Proof.
  induction inputs as [|i rest IH]; intros s id B Hlt Hn; simpl;
    [assumption|].
  pose proof (step_db_change s i) as C.
  destruct (step s i) as [s1 o1]. simpl in C.
  destruct (db_change_below _ _ _ _ C B) as [B1 L1].
  pose proof (db_change_absent _ _ _ _ id C Hlt Hn) as Hn1.
  specialize (IH s1 id B1 ltac:(lia) Hn1).
  now destruct (run s1 rest).
Qed.

(** X8. Whatever the server goes through, a stored message is either
    deleted, and then its id is never used again, or keeps its id, sender,
    senderId, room, isPrivate, recipientId, delivered, image and
    createdAt; once [edited] or [read] is set it stays set.  No handler
    moves a message to another room or changes who sent it. *)
Theorem X8_message_identity_kept s inputs id m :
  reachable s ->
  findById id (db s) = Some m ->
  findById id (db (fst (run s inputs))) = None
  \/ exists m', findById id (db (fst (run s inputs))) = Some m'
                /\ same_identity m m'.
Proof.
  intros R. pose proof (reachable_ids_below s R) as B. clear R.
  revert s id m B.
  induction inputs as [|i rest IH]; intros s id m B Hm; simpl.
  - right. exists m. split; [assumption|apply same_identity_refl].
  - pose proof (step_db_change s i) as C.
    assert (Hlt : (id < next_id s)%N).
    { unfold ids_below in B. rewrite Forall_forall in B.
      unfold findById in Hm. apply find_some in Hm as [Hin E].
      apply N.eqb_eq in E. subst id. auto. }
    pose proof (run_absent rest (fst (step s i)) id) as A.
    pose proof (IH (fst (step s i)) id) as IH'.
    destruct (step s i) as [s1 o1]. simpl in *.
    destruct (db_change_below _ _ _ _ C B) as [B1 L1].
    destruct (db_change_identity _ _ _ _ id m C Hm) as [H1|[m1 [H1 S1]]].
    + left. specialize (A B1 ltac:(lia) H1). now destruct (run s1 rest).
    + destruct (IH' m1 B1 H1) as [H2|[m2 [H2 S2]]];
        destruct (run s1 rest) as [s2 o2]; simpl in *.
      * now left.
      * right. exists m2. split; [assumption|].
        eapply same_identity_trans; eauto.
Qed.

Lemma X8_witness :
  let s' := fst (run one_message
                     [Receive "B" 7 (edit_message 1%N "bye"); Settle 1 true 8;
                      Receive "B" 9 (add_reaction 1%N "+1"); Settle 1 true 10;
                      Settle 1 true 11]) in
  findById 1%N (db s') = None
  \/ exists m', findById 1%N (db s') = Some m'
                /\ same_identity
                     (Message.mk 1%N "alice" "A" "hi" "general" false None
                                 true false [] false None 6 6 0%N) m'.
Proof.
  apply (X8_message_identity_kept one_message).
  - apply run_reachable, reachable_run.
  - reflexivity.
Defined.

(** ** The shape of what is stored *)

Lemma well_shaped_same_identity x y :
  well_shaped x -> same_identity x y -> well_shaped y.
Proof.
  unfold well_shaped, same_identity.
  intros (W1 & W2 & W3 & W4) (A1 & A2 & A3 & A4 & A5 & A6 & A7 & A8 & _).
  rewrite A2, A3, A5, A6, A7, A4, A8. auto.
Qed.

Lemma Forall_remove_nth {A : Type} (P : A -> Prop) k l :
  Forall P l -> Forall P (remove_nth k l).
Proof.
  revert k. induction l as [|x l IH]; intros k H; simpl; [destruct k; auto|].
  inversion H; subst. destruct k; [assumption|]. constructor; auto.
Qed.

Lemma Forall_update_doc id write d :
  (forall x, same_identity x (write x)) ->
  Forall well_shaped d -> Forall well_shaped (update_doc id write d).
Proof.
  intros Hw H. unfold update_doc. apply Forall_forall. intros y Hy.
  apply in_map_iff in Hy as [x [<- Hx]]. rewrite Forall_forall in H.
  destruct (N.eqb (Message._id x) id); [|auto].
  eapply well_shaped_same_identity; [apply H|apply Hw]; assumption.
Qed.

Lemma save_new_shaped now m s saved s' :
  task_shaped (AwaitSendSave "" m) ->
  save_new now m s = Some (saved, s') ->
  well_shaped saved /\ db s' = db s ++ [saved] /\ pending s' = pending s.
Proof.
  unfold save_new, Message.validate. simpl. intros [T1 T2].
  destruct (String.eqb_spec (Message.sender m) ""); [discriminate|].
  destruct (String.eqb_spec (Message.senderId m) ""); [discriminate|].
  destruct (String.eqb_spec (Message.message m) ""); [discriminate|].
  simpl. intros H. injection H as <- <-. simpl. repeat split; auto.
Qed.

Lemma shaped_suspend t s : task_shaped t -> shaped s -> shaped (suspend t s).
Proof.
  intros Ht [H1 H2]. split; simpl; [assumption|].
  apply Forall_app. split; [assumption|]. now constructor.
Qed.

Lemma shaped_step s i : shaped s -> shaped (fst (step s i)).
Proof.
  intros S. destruct i as [sid|sid now e|sid|k ok now]; simpl.
  - now destruct (connected (sockets s) sid || _).
  - destruct (connected (sockets s) sid); [|assumption].
    destruct e; simpl;
      try (apply shaped_suspend; [exact Logic.I|exact S]).
    + unfold handle_send_message.
      destruct (obj_get (users s) sid); [|assumption].
      apply shaped_suspend; [|assumption]. simpl. auto.
    + unfold handle_join_room. destruct (obj_get (users s) sid); [|assumption].
      destruct (negb (includes rooms newRoom) || _); [assumption|].
      apply shaped_suspend; [exact Logic.I|exact S].
    + unfold handle_typing_start.
      now destruct (obj_get (users s) sid).
    + unfold handle_typing_stop.
      now destruct (obj_get (users s) sid).
    + unfold handle_private_message.
      destruct (obj_get (users s) sid); [|assumption].
      destruct (truthy_at (users s) toUserId); [|assumption].
      apply shaped_suspend; [|assumption]. simpl. split; [reflexivity|].
      eauto.
  - destruct (connected (sockets s) sid); [|assumption].
    unfold handle_disconnect. simpl.
    now destruct (obj_get (users s) sid).
  - destruct (nth_error (pending s) k) as [t|] eqn:Ek; [|assumption].
    destruct S as [S1 S2].
    assert (Ht : task_shaped t).
    { rewrite Forall_forall in S2. apply S2. eapply nth_error_In; eauto. }
    assert (S' : shaped (set_pending (remove_nth k (pending s)) s)).
    { split; simpl; [assumption|now apply Forall_remove_nth]. }
    destruct ok;
      [|unfold reject; destruct (caught t || _);
        [exact S'|split; [apply S'|constructor]]].
    set (s0 := set_pending (remove_nth k (pending s)) s) in *.
    destruct t; cbn [resume]; try exact S'.
    + destruct (save_new now newMessage s0) as [[saved s']|] eqn:E;
        [|exact S'].
      destruct (save_new_shaped _ _ _ _ _ Ht E) as (W & Ed & Ep).
      split; simpl; rewrite ?Ed, ?Ep; [|apply S'].
      apply Forall_app. split; [apply S'|now constructor].
    + unfold findByIdAndUpdate. destruct (findById id (db s0)); [|exact S'].
      split; simpl; [|apply S']. apply Forall_update_doc; [|apply S'].
      intros x. repeat split; auto.
    + destruct (findById id (db s0)); [|exact S'].
      apply shaped_suspend; [exact Logic.I|exact S'].
    + split; simpl; [|apply S']. unfold delete_doc.
      apply Forall_forall. intros y Hy. apply filter_In in Hy as [Hy _].
      destruct S' as [S' _]. rewrite Forall_forall in S'. auto.
    + destruct (findById messageId (db s0)); [|exact S'].
      apply shaped_suspend; [exact Logic.I|exact S'].
    + unfold save_reactions.
      destruct (findById (Message._id message) (db s0)) as [stored|];
        [|exact S'].
      destruct (version_matches delta message stored); [|exact S'].
      split; simpl; [|apply S']. apply Forall_update_doc; [|apply S'].
      intros x. destruct delta; repeat split; auto.
    + unfold findByIdAndUpdate.
      destruct (findById messageId (db s0)); [|exact S'].
      split; simpl; [|apply S']. apply Forall_update_doc; [|apply S'].
      intros x. repeat split; auto.
    + destruct (save_new now newMessage s0) as [[saved s']|] eqn:E;
        [|exact S'].
      destruct (save_new_shaped _ _ _ _ _ Ht E) as (W & Ed & Ep).
      split; simpl; rewrite ?Ed, ?Ep; [|apply S'].
      apply Forall_app. split; [apply S'|now constructor].
Qed.

(** X9. Every message the server has stored has a named sender and
    [delivered] set (no handler ever clears it), and is either public with
    no recipient, or private with a recipient, the room derived from its
    sender and that recipient, and no image. *)
Theorem X9_stored_messages_well_shaped s m :
  reachable s -> In m (db s) -> well_shaped m.
Proof.
  intros R. assert (S : shaped s).
  { induction R as [| |s i R IH];
      [split; constructor|split; constructor|now apply shaped_step]. }
  destruct S as [S _]. rewrite Forall_forall in S. apply S.
Qed.

Lemma X9_witness :
  well_shaped (Message.mk 1%N "alice" "A" "hi" "general" false None true
                          false [] false None 6 6 0%N).
Proof.
  apply (X9_stored_messages_well_shaped one_message).
  - apply run_reachable, reachable_run.
  - vm_compute. tauto.
Defined.

(** ** The HTTP routes *)

(** X10. [GET /api/messages/:room] answers with exactly the stored
    messages of the room, each as often as it is stored and none of
    another room, in ascending order of creation; the history replayed on
    a join is the first hundred of that answer, and all of it when the
    room has at most a hundred messages. *)
Theorem X10_get_messages room db :
  exists messages,
    get_messages true room db = MessagesJson messages
    /\ Permutation messages
         (filter (fun m => String.eqb (Message.room m) room) db)
    /\ Forall (fun m => Message.room m = room) messages
    /\ StronglySorted older messages
    /\ find_room_history room db = firstn 100 messages
    /\ ((List.length messages <= 100)%nat ->
        find_room_history room db = messages).
Proof.
  eexists. split; [reflexivity|]. split; [apply sort_by_createdAt_perm|].
  split; [|split; [apply sort_by_createdAt_sorted|split; [reflexivity|]]].
  - eapply Permutation_Forall; [symmetry; apply sort_by_createdAt_perm|].
    apply Forall_forall. intros m Hm. apply filter_In in Hm as [_ Hm].
    now apply String.eqb_eq.
  - intros H. unfold find_room_history. now apply firstn_all2.
Qed.

(** X11. In every state the server can reach, the [users_online] of
    [GET /api/health] is the number of entries of the roster, every one of
    them a connected socket, so it never exceeds the number of connected
    sockets; the status is UP exactly when the database is connected. *)
Theorem X11_health_counts_registered s readyState now :
  reachable s ->
  let h := get_health readyState now (users s) in
  Health.users_online h = List.length (user_list_all (users s))
  /\ (Health.users_online h <= List.length (sockets s))%nat
  /\ (Health.status h = "UP" <-> readyState = 1).
Proof.
  intros R h. pose proof (reachable_Inv s R) as I. split; [|split].
  - unfold h, get_health, user_list_all, obj_values, obj_keys. simpl.
    now rewrite !length_map.
  - unfold h, get_health. simpl.
    rewrite <- (length_map fst (sockets s)).
    apply NoDup_incl_length; [apply (inv_keys s I)|].
    intros k Hk. apply connected_In. now apply (inv_registered s I).
  - unfold h, get_health. simpl.
    destruct (Z.eqb_spec readyState 1); simpl; split; intros H;
      try assumption; try reflexivity; try discriminate; contradiction.
Qed.

Lemma X11_witness :
  let h := get_health 1 10 (users two_joined) in
  Health.users_online h = 2%nat
  /\ (Health.users_online h <= List.length (sockets two_joined))%nat
  /\ (Health.status h = "UP" <-> 1 = 1).
Proof.
  apply (X11_health_counts_registered two_joined 1 10).
  apply reachable_run.
Defined.

(** ** Joining *)

(** X12. A [user_join] on a connected socket, once the history query is
    fulfilled, sends in this order: the list of public rooms and the first
    hundred messages of the room general to the socket, the roster to
    every connected socket, and the join notification to the other sockets
    of the room general.  The roster holds the entry of the new user, and
    that user is in the room general for the registry and for the
    adapter. *)
Theorem X12_user_join_packets s sid now1 now2 username :
  connected (sockets s) sid = true ->
  let entry := User.mk sid username "general" true now1 in
  let us := obj_set (users s) sid entry in
  let ss := socket_join sid "general" (sockets s) in
  run s [Receive sid now1 (user_join username);
         Settle (List.length (pending s)) true now2]
  = (set_sockets ss (set_users us s),
     [(sid, available_rooms rooms);
      (sid, message_history (find_room_history "general" (db s)))]
     ++ map (fun t => (t, user_list (user_list_all us))) (map fst ss)
     ++ map (fun t => (t, notification
                            (Notification.mk join
                               (username ++ " joined the chat")%string
                               "general")))
            (filter (fun t => negb (String.eqb t sid))
                    (room_members ss "general")))
  /\ In (roster_entry entry) (user_list_all us)
  /\ In sid (room_members ss "general").
Proof.
  intros Hc entry us ss.
  assert (Hc2 : connected ss sid = true)
    by (unfold ss; now rewrite connected_join).
  split; [|split].
  - cbn [run].
    assert (E : step s (Receive sid now1 (user_join username))
                = (suspend (AwaitUserJoinHistory sid username)
                           (set_sockets ss (set_users us s)),
                   [(sid, available_rooms rooms)])).
    { cbn [step]. rewrite Hc. cbn [handle]. unfold handle_user_join.
      cbn [sockets set_users set_sockets]. unfold socket_emit.
      fold ss. fold entry. fold us. now rewrite Hc2. }
    rewrite E.
    change (List.length (pending s))
      with (List.length (pending (set_sockets ss (set_users us s)))).
    rewrite step_suspend_settle. cbn [resume].
    cbn [sockets users db set_users set_sockets].
    unfold socket_emit. rewrite Hc2.
    rewrite socket_broadcast_to_others. unfold io_emit.
    rewrite <- (map_map fst (fun t => (t, user_list (user_list_all us)))).
    cbn [app]. now rewrite app_nil_r.
  - unfold user_list_all, obj_values. apply in_map, (in_map snd _ (sid, entry)).
    apply obj_get_Some_In, obj_get_set_eq.
  - now apply room_members_join_self.
Qed.

Lemma X12_witness :
  snd (run (fst (run init [Connect "A"]))
           [Receive "A" 1 (user_join "alice"); Settle 0 true 2])
  = [("A", available_rooms rooms); ("A", message_history []);
     ("A", user_list [RosterEntry.mk "A" "alice" "general" true])].
Proof.
  pose proof (X12_user_join_packets (fst (run init [Connect "A"])) "A" 1 2
                "alice" eq_refl) as [H _].
  change (List.length (pending (fst (run init [Connect "A"])))) with 0%nat in H.
  rewrite H. reflexivity.
Defined.

(** X13. The history query of [user_join] and of [join_room] is awaited
    outside any [try].  When it is rejected, only what the handler sent
    before the [await] is sent: the list of rooms to the new user, the two
    notifications of the switch to the other sockets; no history, no
    [room_joined] and no roster.  What is left of the server depends on
    the environment.  With [SENTRY_DSN] set, the rejection is reported and
    the server goes on: the new user stays registered in the room general,
    the mover stays in the new room.  Without it nobody handles the
    rejection and the process ends: no user, no connection and no
    suspended handler is left; the collection is as it was. *)
Theorem X13_rejected_history_query s sid now1 now2 :
  connected (sockets s) sid = true ->
  (forall username,
     let r := run s [Receive sid now1 (user_join username);
                     Settle (List.length (pending s)) false now2] in
     snd r = [(sid, available_rooms rooms)]
     /\ (SENTRY_DSN s = true ->
         obj_get (users (fst r)) sid
         = Some (User.mk sid username "general" true now1)
         /\ sockets (fst r) = socket_join sid "general" (sockets s)
         /\ pending (fst r) = pending s)
     /\ (SENTRY_DSN s = false ->
         users (fst r) = [] /\ typingUsers (fst r) = []
         /\ sockets (fst r) = [] /\ pending (fst r) = []
         /\ db (fst r) = db s))
  /\
  (forall newRoom u,
     obj_get (users s) sid = Some u -> In newRoom rooms ->
     User.room u <> newRoom ->
     let r := run s [Receive sid now1 (join_room newRoom);
                     Settle (List.length (pending s)) false now2] in
     (forall t e, In (t, e) (snd r) ->
        t <> sid /\ exists n, e = notification n)
     /\ (SENTRY_DSN s = true ->
         obj_get (users (fst r)) sid = Some (User.set_room newRoom u)
         /\ pending (fst r) = pending s)
     /\ (SENTRY_DSN s = false ->
         users (fst r) = [] /\ typingUsers (fst r) = []
         /\ sockets (fst r) = [] /\ pending (fst r) = []
         /\ db (fst r) = db s)).
Proof.
  intros Hc. split.
  - intros username r. unfold r. cbn [run step]. rewrite Hc.
    cbn [handle]. unfold handle_user_join, suspend.
    cbn [pending set_pending set_users set_sockets sockets users].
    rewrite nth_error_app_last, remove_nth_app_last.
    unfold reject.
    cbn [caught orb SENTRY_DSN set_pending set_users set_sockets].
    split; [|split].
    + cbn [snd]. unfold socket_emit. now rewrite connected_join, Hc.
    + intros ->. cbn [fst users sockets pending set_pending set_sockets
                      set_users].
      split; [apply obj_get_set_eq|]. split; reflexivity.
    + intros ->. cbn [fst]. repeat split.
  - intros newRoom u Hu Hr Hne r. unfold r. cbn [run step]. rewrite Hc.
    cbn [handle]. unfold handle_join_room. rewrite Hu.
    apply includes_In in Hr. rewrite Hr.
    destruct (String.eqb_spec (User.room u) newRoom); [contradiction|].
    cbn [negb orb]. unfold suspend.
    cbn [pending set_pending set_users set_sockets sockets users].
    rewrite nth_error_app_last, remove_nth_app_last.
    unfold reject.
    cbn [caught orb SENTRY_DSN set_pending set_users set_sockets].
    split; [|split].
    + cbn [snd]. intros t e Hin. rewrite app_nil_r in Hin.
      apply in_app_iff in Hin as [Hin|Hin];
        apply In_socket_broadcast_to in Hin as (-> & Ht & _); eauto.
    + intros ->. cbn [fst users pending set_pending set_sockets set_users].
      split; [apply obj_get_set_eq|reflexivity].
    + intros ->. cbn [fst]. repeat split.
Qed.

Lemma X13_witness :
  (let r := run two_joined [Receive "A" 5 (join_room "random");
                            Settle 1 false 6] in
   users (fst r) = [] /\ sockets (fst r) = [])
  /\
  (let r := run (fst (run init_sentry [Connect "A"]))
                [Receive "A" 1 (user_join "alice"); Settle 0 false 2] in
   obj_get (users (fst r)) "A" = Some (User.mk "A" "alice" "general" true 1)).
Proof.
  split.
  - destruct (proj2 (X13_rejected_history_query two_joined "A" 5 6 eq_refl)
                    "random" (User.mk "A" "alice" "general" true 1))
      as (_ & _ & H).
    + reflexivity.
    + simpl. tauto.
    + discriminate.
    + destruct (H eq_refl) as (H1 & _ & H3 & _). split; assumption.
  - destruct (proj1 (X13_rejected_history_query
                       (fst (run init_sentry [Connect "A"])) "A" 1 2 eq_refl)
                    "alice") as (_ & H & _).
    destruct (H eq_refl) as (H1 & _). exact H1.
Defined.

(** ** Who can receive a packet *)

Lemma In_connected (ss : Sockets) t rs : In (t, rs) ss -> connected ss t = true.
Proof. intros H. apply connected_In. now apply (in_map fst) in H. Qed.

(** a packet of one of the four ways of sending goes to a connected
    socket *)
Ltac to_connected H :=
  repeat match type of H with
         | In _ (_ ++ _) => apply in_app_iff in H as [H|H]
         end;
  first
    [ apply In_io_emit in H as [_ H]; exact H
    | apply In_io_to in H as (_ & ? & H & _); exact (In_connected _ _ _ H)
    | apply In_socket_emit in H as (_ & -> & H); exact H
    | apply In_socket_broadcast_to in H as (_ & _ & ? & H & _);
      exact (In_connected _ _ _ H)
    | destruct H ].

Lemma step_recipients_connected s i t e :
  In (t, e) (snd (step s i)) ->
  connected (sockets (fst (step s i))) t = true.
Proof.
  intros H. destruct i as [sid|sid now ev|sid|k ok now]; simpl in *.
  - destruct (connected (sockets s) sid || includes (closed s) sid);
      destruct H.
  - destruct (connected (sockets s) sid); [|destruct H].
    destruct ev; simpl in *; try (destruct H; fail).
    + to_connected H.
    + unfold handle_send_message in *.
      destruct (obj_get (users s) sid); destruct H.
    + unfold handle_join_room in *.
      destruct (obj_get (users s) sid); [|destruct H].
      destruct (negb (includes rooms newRoom) || _); [destruct H|].
      simpl in *. apply in_app_iff in H as [H|H].
      * rewrite connected_join.
        apply In_socket_broadcast_to in H as (_ & _ & ? & H & _).
        exact (In_connected _ _ _ H).
      * to_connected H.
    + unfold handle_typing_start in *.
      destruct (obj_get (users s) sid); [|destruct H].
      simpl in *. to_connected H.
    + unfold handle_typing_stop in *.
      destruct (obj_get (users s) sid); [|destruct H].
      simpl in *. to_connected H.
    + unfold handle_private_message in *.
      destruct (obj_get (users s) sid); [|destruct H].
      destruct (truthy_at (users s) toUserId); destruct H.
  - destruct (connected (sockets s) sid); [|destruct H].
    unfold handle_disconnect in *. simpl in *.
    destruct (obj_get (users s) sid); [|destruct H].
    simpl in *. to_connected H.
  - destruct (nth_error (pending s) k) as [task|]; [|destruct H].
    destruct ok; [|destruct H].
    set (s0 := set_pending (remove_nth k (pending s)) s) in *.
    destruct task; cbn [resume] in *.
    + simpl in *. to_connected H.
    + destruct (save_new now newMessage s0) as [[saved s']|] eqn:E;
        [|destruct H]. simpl in *. to_connected H.
    + destruct (findByIdAndUpdate id _ now s0) as [[updated s']|] eqn:E;
        [|destruct H]. simpl in *. to_connected H.
    + destruct (findById id (db s0)); destruct H.
    + simpl in *. to_connected H.
    + simpl in *. to_connected H.
    + destruct (findById messageId (db s0)); destruct H.
    + destruct (save_reactions now message delta s0) as [[saved s']|] eqn:E;
        [|destruct H]. simpl in *. to_connected H.
    + destruct (findByIdAndUpdate messageId _ now s0) as [[updated s']|] eqn:E;
        [|destruct H]. simpl in *. to_connected H.
    + destruct (save_new now newMessage s0) as [[saved s']|] eqn:E;
        [|destruct H]. simpl in *. to_connected H.
Qed.

Lemma run_nothing_to_closed A inputs : forall s,
  Inv s -> In A (closed s) ->
  forall e, ~ In (A, e) (snd (run s inputs)).
Proof.
  induction inputs as [|i rest IH]; intros s I HA e; simpl; [tauto|].
  pose proof (step_Inv s i I) as I1.
  pose proof (step_closed_mono s i A HA) as HA1.
  pose proof (step_recipients_connected s i A e) as HC.
  destruct (step s i) as [s1 o1]. simpl in *.
  specialize (IH s1 I1 HA1 e).
  destruct (run s1 rest) as [s2 o2]. simpl in *.
  intros Hin. apply in_app_iff in Hin as [Hin|Hin]; [|contradiction].
  apply HC in Hin. rewrite (inv_closed s1 I1 A HA1) in Hin. discriminate.
Qed.

(** X14. Every packet goes to a socket that is connected when the
    handler is done; and once a socket has disconnected it never gets a
    packet again, neither from its own disconnect handler nor from any
    handler that runs later, its own suspended ones included. *)
Theorem X14_no_packet_after_disconnect s A later :
  reachable s ->
  connected (sockets s) A = true ->
  (forall i t e, In (t, e) (snd (step s i)) ->
                 connected (sockets (fst (step s i))) t = true)
  /\ forall e,
       ~ In (A, e) (snd (run s (Disconnect A :: later))).
Proof.
  intros R Hc. split; [intros i t e; apply step_recipients_connected|].
  intros e. pose proof (reachable_Inv s R) as I.
  change (Disconnect A :: later) with ([Disconnect A] ++ later).
  rewrite run_app. cbn [snd].
  set (s1 := fst (run s [Disconnect A])).
  assert (E1 : s1 = fst (step s (Disconnect A))).
  { unfold s1. cbn [run]. now destruct (step s (Disconnect A)). }
  assert (I1 : Inv s1) by (rewrite E1; now apply step_Inv).
  assert (HA : In A (closed s1)).
  { rewrite E1. simpl. rewrite Hc. unfold handle_disconnect. simpl.
    destruct (obj_get (users s) A); simpl; now left. }
  intros Hin. apply in_app_iff in Hin as [Hin|Hin].
  - assert (Hin' : In (A, e) (snd (step s (Disconnect A)))).
    { cbn [run] in Hin. destruct (step s (Disconnect A)). simpl in *.
      now rewrite app_nil_r in Hin. }
    apply step_recipients_connected in Hin'. rewrite <- E1 in Hin'.
    rewrite (inv_closed s1 I1 A HA) in Hin'. discriminate.
  - exact (run_nothing_to_closed A later s1 I1 HA e Hin).
Qed.

Lemma X14_witness :
  ~ In ("A", user_list [RosterEntry.mk "B" "bob" "general" true])
       (snd (run two_typing
               [Disconnect "A"; Receive "B" 7 (private_message "A" "hi");
                Settle 0 true 8; Receive "B" 9 typing_stop])).
Proof.
  apply (X14_no_packet_after_disconnect two_typing "A").
  - apply reachable_run.
  - reflexivity.
Defined.

(** ** Typing, leaving, and private messages without a body *)

Lemma obj_delete_set {V : Type} (o : obj V) k v :
  obj_delete (obj_set o k v) k = obj_delete o k.
Proof.
  induction o as [|[k' v'] o IH]; simpl.
  - now rewrite String.eqb_refl.
  - destruct (String.eqb_spec k' k); simpl.
    + now rewrite String.eqb_refl.
    + destruct (String.eqb_spec k' k); [contradiction|]. simpl.
      now rewrite IH.
Qed.

(** X15. For a registered user who is not typing, [typing_start]
    followed by [typing_stop] leaves the server in the state it was in:
    the entry written by the first is the one removed by the second, and
    no other entry of [typingUsers] moves. *)
Theorem X15_typing_start_stop s sid now1 now2 :
  reachable s ->
  In sid (obj_keys (users s)) ->
  ~ In sid (obj_keys (typingUsers s)) ->
  fst (run s [Receive sid now1 typing_start; Receive sid now2 typing_stop])
  = s.
Proof.
  intros R Hu Ht. pose proof (reachable_Inv s R) as I.
  assert (Hc : connected (sockets s) sid = true)
    by now apply (inv_registered s I).
  destruct (obj_get (users s) sid) as [u|] eqn:Eu;
    [|apply obj_get_None_keys in Eu; contradiction].
  cbn [run step]. rewrite Hc. cbn [handle]. unfold handle_typing_start.
  rewrite Eu. cbn [sockets set_typingUsers]. rewrite Hc. cbn [handle].
  unfold handle_typing_stop. cbn [users typingUsers set_typingUsers].
  rewrite Eu. cbn [fst]. rewrite obj_delete_set, obj_delete_absent by assumption.
  now destruct s.
Qed.

Lemma X15_witness :
  fst (run two_joined [Receive "A" 5 typing_start; Receive "A" 6 typing_stop])
  = two_joined.
Proof.
  apply (X15_typing_start_stop two_joined "A" 5 6).
  - apply reachable_run.
  - simpl. tauto.
  - simpl. tauto.
Defined.

Lemma filter_not_in (l : list string) sid :
  ~ In sid l -> filter (fun t => negb (String.eqb t sid)) l = l.
Proof.
  induction l as [|x l IH]; simpl; intros H; [reflexivity|].
  destruct (String.eqb_spec x sid); simpl.
  - exfalso. apply H. now left.
  - f_equal. apply IH. tauto.
Qed.

(** X16. When a registered user disconnects, the leave notification goes
    to the sockets still in the room of the user, then the roster goes to
    every socket still connected, and it is the registry without the
    user; the entries of the user in [users] and in [typingUsers] are
    gone.  When a socket that never joined disconnects, nothing is sent
    and the two maps stay as they are. *)
Theorem X16_disconnect_packets s sid :
  reachable s ->
  connected (sockets s) sid = true ->
  let ss := socket_remove sid (sockets s) in
  let r := step s (Disconnect sid) in
  sockets (fst r) = ss
  /\ match obj_get (users s) sid with
     | Some u =>
         users (fst r) = obj_delete (users s) sid
         /\ typingUsers (fst r) = obj_delete (typingUsers s) sid
         /\ snd r
            = map (fun t => (t, notification
                                  (Notification.mk leave
                                     (User.username u ++ " disconnected")%string
                                     (User.room u))))
                  (room_members ss (User.room u))
              ++ map (fun t => (t, user_list
                                     (user_list_all
                                        (obj_delete (users s) sid))))
                     (map fst ss)
     | None =>
         users (fst r) = users s /\ typingUsers (fst r) = typingUsers s
         /\ snd r = []
     end.
Proof.
  intros R Hc ss r. pose proof (reachable_Inv s R) as I.
  unfold r. cbn [step]. rewrite Hc. unfold handle_disconnect.
  cbn [users typingUsers sockets set_closed set_sockets].
  destruct (obj_get (users s) sid) as [u|] eqn:Eu; cbn [fst snd].
  - split; [reflexivity|].
    cbn [users typingUsers set_users set_typingUsers].
    rewrite obj_delete_set. split; [reflexivity|]. split; [reflexivity|].
    fold ss. rewrite socket_broadcast_to_others.
    rewrite filter_not_in.
    2:{ unfold ss. intros H. apply room_members_remove in H. tauto. }
    rewrite roster_after_offline;
      [|apply (inv_keys s I)
       |intros k v Hin; now apply (inv_entries s I k v)].
    rewrite obj_delete_set. unfold io_emit.
    now rewrite <- (map_map fst (fun t => (t, user_list _))).
  - repeat split.
Qed.

Lemma X16_witness :
  snd (step two_typing (Disconnect "A"))
  = [("B", notification (Notification.mk leave "alice disconnected" "general"));
     ("B", user_list [RosterEntry.mk "B" "bob" "general" true])].
Proof.
  pose proof (X16_disconnect_packets two_typing "A" (reachable_run _) eq_refl)
    as [_ H].
  change (obj_get (users two_typing) "A")
    with (Some (User.mk "A" "alice" "general" true 1)) in H.
  destruct H as (_ & _ & H). rewrite H. reflexivity.
Defined.

(** X17. A [private_message] with an empty text between two registered
    users is never stored and never delivered: the schema requires
    [message], and unlike [send_message] the handler puts nothing in its
    place.  Whether the store is up or not, the server ends where it
    started and no packet is sent. *)
Theorem X17_private_message_empty_body s sid toUserId now1 now2 ok :
  connected (sockets s) sid = true ->
  run s [Receive sid now1 (private_message toUserId "");
         Settle (List.length (pending s)) ok now2]
  = (s, []).
Proof.
  intros Hc. cbn [run step]. rewrite Hc. cbn [handle].
  unfold handle_private_message.
  destruct (obj_get (users s) sid) as [u|];
    [destruct (truthy_at (users s) toUserId)|].
  - unfold suspend. cbn [pending set_pending].
    rewrite nth_error_app_last, remove_nth_app_last.
    destruct ok; cbn [resume]; unfold save_new, Message.validate;
      cbn [Message.message Message.new String.eqb negb andb];
      rewrite ?andb_false_r; now destruct s.
  - now rewrite nth_error_length_None.
  - now rewrite nth_error_length_None.
Qed.

Lemma X17_witness :
  run two_joined [Receive "A" 5 (private_message "B" ""); Settle 1 true 6]
  = (two_joined, []).
Proof.
  apply (X17_private_message_empty_body two_joined "A" "B" 5 6 true).
  reflexivity.
Defined.

Lemma X19_witness :
  deriveRoomId "Xq3kU9bAAAAAAAAAAAAB" "42" = "private-NaN-NaN".
Proof.
  apply (deriveRoomId_NaN "Xq3kU9bAAAAAAAAAAAAB" "42").
  left. reflexivity.
Defined.

(** ** Private messages between registered users *)

Lemma inherited_name_not_public k : In k Object_prototype -> ~ In k rooms.
Proof.
  unfold Object_prototype, rooms. simpl. intros H.
  repeat (destruct H as [<-|H]; [intuition discriminate|]). destruct H.
Qed.

(** no socket is in a room whose name is neither a public room nor the
    id of a connected socket *)
Lemma room_members_unknown s r :
  Inv s -> ~ In r rooms -> connected (sockets s) r = false ->
  room_members (sockets s) r = [].
Proof.
  intros I Hn Hc. destruct (room_members (sockets s) r) as [|t l] eqn:E;
    [reflexivity|].
  assert (Hin : In t (room_members (sockets s) r)) by (rewrite E; now left).
  pose proof (room_members_only s r t I Hn Hin) as ->.
  apply In_room_members in Hin as [rs [Hin _]].
  apply In_connected in Hin. congruence.
Qed.

(** X20. A [private_message] from A to B does nothing at all when A is
    not registered, or when B is neither registered nor a name that every
    object inherits.  When both are registered and the store takes the
    message, the message stored is private, carries the derived room id
    and B as recipient, and the packets sent are, in this order:
    [receive_message] with it to A, [receive_message] with it to B, and a
    notification of type private to B; no other connection gets a packet.
    Whatever runs while the save is pending, its settling sends packets to
    A and B only.  When B is not registered but is an inherited name, as
    constructor, the message is stored all the same, with B as recipient,
    and [receive_message] goes to A alone.  (Ids are not names of public
    rooms.) *)
Theorem X20_private_message_delivery s A B body now1 now2 :
  reachable s ->
  (obj_get (users s) A = None
   \/ (obj_get (users s) B = None /\ ~ In B Object_prototype) ->
   step s (Receive A now1 (private_message B body)) = (s, []))
  /\
  (forall ua ub,
     obj_get (users s) A = Some ua -> obj_get (users s) B = Some ub ->
     ~ In A rooms -> ~ In B rooms ->
     let newMessage :=
       Message.new (User.username ua) A body (deriveRoomId A B) true
                   (Some B) None in
     Message.validate newMessage = true ->
     let saved := Message.stamp (next_id s) now2 newMessage in
     let out :=
       [(A, receive_message saved); (B, receive_message saved);
        (B, notification
              (Notification.mk private
                 ("New private message from " ++ User.username ua)%string
                 (deriveRoomId A B)))] in
     run s [Receive A now1 (private_message B body);
            Settle (List.length (pending s)) true now2]
     = (set_next_id (N.succ (next_id s)) (set_db (db s ++ [saved]) s), out)
     /\ Message.isPrivate saved = true
     /\ Message.room saved = deriveRoomId A B
     /\ Message.recipientId saved = Some B
     /\ (forall C e, C <> A -> C <> B -> ~ In (C, e) out))
  /\
  (forall s' k now senderName newMessage C e,
     reachable s' -> ~ In A rooms -> ~ In B rooms ->
     nth_error (pending s') k
     = Some (AwaitPrivateSave A B senderName newMessage) ->
     In (C, e) (snd (step s' (Settle k true now))) -> C = A \/ C = B)
  /\
  (forall ua,
     obj_get (users s) A = Some ua -> obj_get (users s) B = None ->
     In B Object_prototype -> connected (sockets s) B = false ->
     ~ In A rooms ->
     let newMessage :=
       Message.new (User.username ua) A body (deriveRoomId A B) true
                   (Some B) None in
     Message.validate newMessage = true ->
     let saved := Message.stamp (next_id s) now2 newMessage in
     run s [Receive A now1 (private_message B body);
            Settle (List.length (pending s)) true now2]
     = (set_next_id (N.succ (next_id s)) (set_db (db s ++ [saved]) s),
        [(A, receive_message saved)])).
Proof.
  intros R. pose proof (reachable_Inv s R) as I. split; [|split; [|split]].
  - intros H. simpl. destruct (connected (sockets s) A); [|reflexivity].
    simpl. unfold handle_private_message.
    destruct H as [-> | [H Hn]]; [reflexivity|].
    destruct (obj_get (users s) A); [|reflexivity].
    unfold truthy_at. rewrite H.
    apply includes_false in Hn. now rewrite Hn.
  - intros ua ub Ha Hb HnA HnB newMessage Hv saved out.
    assert (HcA : connected (sockets s) A = true).
    { apply (inv_registered s I). eapply obj_get_In_keys; eauto. }
    assert (HcB : connected (sockets s) B = true).
    { apply (inv_registered s I). eapply obj_get_In_keys; eauto. }
    split; [|repeat split].
    + cbn [run].
      replace (step s (Receive A now1 (private_message B body)))
        with (suspend (AwaitPrivateSave A B (User.username ua) newMessage) s,
              @nil Emit)
        by (simpl; rewrite HcA; simpl; unfold handle_private_message,
            truthy_at; now rewrite Ha, Hb).
      rewrite step_suspend_settle. cbn [resume]. unfold save_new.
      fold newMessage. rewrite Hv. fold saved. cbn [sockets set_next_id set_db].
      rewrite !io_to_members.
      rewrite (room_members_own s A I HcA HnA).
      rewrite (room_members_own s B I HcB HnB).
      reflexivity.
    + intros C e HA HB [H|[H|[H|[]]]]; congruence.
  - intros s' k now senderName newMessage C e R' HnA HnB Hk Hin.
    pose proof (reachable_Inv s' R') as I'.
    simpl in Hin. rewrite Hk in Hin. simpl in Hin.
    destruct (save_new now newMessage _) as [[saved s'']|] eqn:Es;
      [|destruct Hin].
    apply save_new_frame in Es as (_ & _ & Ess & _). simpl in Ess, Hin.
    rewrite Ess, !io_to_members in Hin.
    repeat (apply in_app_iff in Hin as [Hin|Hin]);
      apply in_map_iff in Hin as [t [Ht Hin]]; injection Ht as -> _;
      apply room_members_only in Hin; auto.
  - intros ua Ha Hb Hp HcB HnA newMessage Hv saved.
    assert (HcA : connected (sockets s) A = true).
    { apply (inv_registered s I). eapply obj_get_In_keys; eauto. }
    cbn [run].
    replace (step s (Receive A now1 (private_message B body)))
      with (suspend (AwaitPrivateSave A B (User.username ua) newMessage) s,
            @nil Emit)
      by (simpl; rewrite HcA; simpl; unfold handle_private_message,
          truthy_at; rewrite Ha, Hb;
          apply includes_In in Hp; now rewrite Hp).
    rewrite step_suspend_settle. cbn [resume]. unfold save_new.
    fold newMessage. rewrite Hv. fold saved. cbn [sockets set_next_id set_db].
    rewrite !io_to_members.
    rewrite (room_members_own s A I HcA HnA).
    rewrite (room_members_unknown s B I (inherited_name_not_public B Hp) HcB).
    reflexivity.
Qed.

Lemma X20_witness :
  step two_joined (Receive "A" 5 (private_message "C" "psst"))
  = (two_joined, [])
  /\ snd (run two_joined [Receive "A" 5 (private_message "B" "psst");
                          Settle 1 true 6])
     = let saved :=
         Message.mk 1%N "alice" "A" "psst" "private-NaN-NaN" true (Some "B")
                    true false [] false None 6 6 0%N in
       [("A", receive_message saved); ("B", receive_message saved);
        ("B", notification
                (Notification.mk private "New private message from alice"
                                 "private-NaN-NaN"))].
Proof.
  split.
  - apply (X20_private_message_delivery two_joined "A" "C" "psst" 5 6).
    + apply reachable_run.
    + right. split; [reflexivity|]. vm_compute. intuition discriminate.
  - pose proof (proj1 (proj2 (X20_private_message_delivery
                                two_joined "A" "B" "psst" 5 6
                                (reachable_run _)))
                      (User.mk "A" "alice" "general" true 1)
                      (User.mk "B" "bob" "general" true 3)
                      eq_refl eq_refl) as H.
    destruct H as [H _].
    + vm_compute. intuition discriminate.
    + vm_compute. intuition discriminate.
    + reflexivity.
    + change (List.length (pending two_joined)) with 1%nat in H.
      rewrite H. reflexivity.
Defined.

(** ** Reactions of one user on one message *)

(** *** The ids of the collection are distinct *)







(** *** What the handlers other than [add_reaction] do to the reactions *)

Lemma keeps_reactions_refl d n : keeps_reactions d n d n.
Proof. split; [lia|]. intros y Hy. left. eauto. Qed.








(** *** At most one suspended [add_reaction] *)


















